(** * The client interaction engine of the PDF chatbot (src/src/App.js)

    A shallow embedding of the React component [PDFChatbot], of its hook
    [useTypewriter] and of the markdown renderer [MarkdownComponents.code],
    with the properties of the specification proved or refuted on it.

    Conventions of the embedding:
    - a JavaScript string is a [string]; a character stands for one UTF-16
      code unit in the range 0..255;
    - [useState] cells are the fields of a record, [useRef] cells too;
    - an [async] function is a [Task]: a tree of state updates and
      suspension points, one [Await] per network exchange;
    - an event handler reads the values of the render it was created in:
      it takes that render's state as its first argument. *)

From stdpp Require Import gmap strings list pretty.
From Stdlib Require Import ZArith String Ascii Lia.

Local Open Scope string_scope.
Local Open Scope nat_scope.
Local Open Scope list_scope.

(* ================================================================== *)
(** ** JavaScript strings *)
(* ================================================================== *)

Module Js.

(** The line feed, written ['\n'] in the source. *)
Definition LF : ascii := "010"%char.

Definition code (c : ascii) : nat := nat_of_ascii c.

(** [s.length] *)
Definition length (s : string) : nat := String.length s.

(** [s.slice(0, n)] for [0 <= n]: the first [n] units, all of [s] when
    it is shorter. *)
Fixpoint slice0 (n : nat) (s : string) : string :=
  match n, s with
  | S n', String c s' => String c (slice0 n' s')
  | _, _ => EmptyString
  end.

(** [s.includes(String.fromCharCode(c))] *)
Fixpoint includes_char (c : ascii) (s : string) : bool :=
  match s with
  | EmptyString => false
  | String d s' => Ascii.eqb d c || includes_char c s'
  end.

(** [s.startsWith(p)], returning what follows [p]. *)
Fixpoint strip_prefix (p s : string) : option string :=
  match p, s with
  | EmptyString, _ => Some s
  | String a p', String b s' =>
      if Ascii.eqb a b then strip_prefix p' s' else None
  | String _ _, EmptyString => None
  end.

(** [s.includes(p)] *)
Fixpoint includes (p s : string) : bool :=
  match strip_prefix p s with
  | Some _ => true
  | None => match s with
            | EmptyString => false
            | String _ s' => includes p s'
            end
  end.

(** [s.endsWith(p)] *)
Fixpoint endsWith (p s : string) : bool :=
  String.eqb s p ||
  match s with
  | EmptyString => false
  | String _ s' => endsWith p s'
  end.

(** [s.toLowerCase()] on the units 0..255: the letters A-Z and the
    Latin-1 capitals 192..222 (215, the multiplication sign, apart) move
    up by 32; no other unit below 256 changes. *)
Definition lower_char (c : ascii) : ascii :=
  let n := code c in
  if ((65 <=? n) && (n <=? 90)) ||
     ((192 <=? n) && (n <=? 222) && negb (n =? 215))
  then ascii_of_nat (n + 32) else c.

Fixpoint toLowerCase (s : string) : string :=
  match s with
  | EmptyString => EmptyString
  | String c s' => String (lower_char c) (toLowerCase s')
  end.

(** White space and line terminators of ECMAScript among the units
    0..255: TAB, LF, VT, FF, CR, SP and NBSP. *)
Definition is_whitespace (c : ascii) : bool :=
  let n := code c in
  ((9 <=? n) && (n <=? 13)) || (n =? 32) || (n =? 160).

Fixpoint trimStart (s : string) : string :=
  match s with
  | EmptyString => EmptyString
  | String c s' => if is_whitespace c then trimStart s' else s
  end.

Fixpoint trimEnd (s : string) : string :=
  match s with
  | EmptyString => EmptyString
  | String c s' =>
      match trimEnd s' with
      | EmptyString => if is_whitespace c then EmptyString
                       else String c EmptyString
      | r => String c r
      end
  end.

(** [s.trim()] *)
Definition trim (s : string) : string := trimStart (trimEnd s).

(** Truthiness of a string: the empty string is the only falsy one. *)
Definition truthy (s : string) : bool :=
  match s with EmptyString => false | _ => true end.

(** [o || d] where [o] is a string or [undefined]. *)
Definition or_else (o : option string) (d : string) : string :=
  match o with
  | Some s => if truthy s then s else d
  | None => d
  end.

(** [String.fromCharCode(c).repeat(n)] *)
Fixpoint repeat (c : ascii) (n : nat) : string :=
  match n with
  | O => EmptyString
  | S n' => String c (repeat c n')
  end.

(** Every unit of [s] is white space (the empty string included). *)
Fixpoint all_whitespace (s : string) : bool :=
  match s with
  | EmptyString => true
  | String c s' => is_whitespace c && all_whitespace s'
  end.

End Js.

(* ================================================================== *)
(** ** The content renderer: [MarkdownComponents.code] *)
(* ================================================================== *)

Module Render.

(** [\w] of a regular expression without the unicode flag. *)
Definition is_word_char (c : ascii) : bool :=
  let n := Js.code c in
  ((48 <=? n) && (n <=? 57)) || ((65 <=? n) && (n <=? 90)) ||
  (n =? 95) || ((97 <=? n) && (n <=? 122)).

(** The greedy [\w*] at the head of [s]. *)
Fixpoint take_word (s : string) : string :=
  match s with
  | EmptyString => EmptyString
  | String c s' => if is_word_char c then String c (take_word s')
                   else EmptyString
  end.

(** [/language-(\w+)/.exec(s)]: the capture group of the leftmost
    match, [None] for [null]. *)
Fixpoint language_exec (s : string) : option string :=
  match s with
  | EmptyString => None
  | String _ s' =>
      match Js.strip_prefix "language-" s with
      | Some rest =>
          match take_word rest with
          | EmptyString => language_exec s'
          | w => Some w
          end
      | None => language_exec s'
      end
  end.

(** [const match = /language-(\w+)/.exec(className || '')] *)
Definition language_tag (className : option string) : option string :=
  language_exec (Js.or_else className "").

(** [String(children).replace(/\n$/, '')]: one line feed at the very end
    is dropped. *)
Fixpoint codeContent (children : string) : string :=
  match children with
  | EmptyString => EmptyString
  | String c s' =>
      match s' with
      | EmptyString => if Ascii.eqb c Js.LF then EmptyString
                       else String c EmptyString
      | _ => String c (codeContent s')
      end
  end.

(** [const isSingleLine = !match && !codeContent.includes('\n') &&
    codeContent.length < 100] *)
Definition isSingleLine (className : option string) (children : string)
  : bool :=
  match language_tag className with
  | Some _ => false
  | None =>
      negb (Js.includes_char Js.LF (codeContent children)) &&
      (Js.length (codeContent children) <? 100)
  end.

(** The three elements the component can return. *)
Inductive Element : Type :=
| InlineCode (children : string)
    (** [<code style={{display: 'inline', ...}}>{children}</code>] *)
| HighlightedBlock (language : string) (content : string)
    (** [<SyntaxHighlighter language={match[1]}>{codeContent}] *)
| PlainBlock (children : string).
    (** [<pre><code className="font-mono text-sm">{children}] *)

(** [code: ({ node, inline, className, children, ...props }) => ...];
    an absent [inline] is [false], an absent [className] is [None]. *)
Definition code (inline : bool) (className : option string)
           (children : string) : Element :=
  if inline || isSingleLine className children then InlineCode children
  else match language_tag className with
       | Some lang => HighlightedBlock lang (codeContent children)
       | None => PlainBlock children
       end.

End Render.

(* ================================================================== *)
(** ** The REST collaborator, as the component sees it *)
(* ================================================================== *)

Module Api.

(** [KnowledgeModes]: the keys of the table and the [name] of each. *)
Inductive KnowledgeMode : Type := strict | augmented | expert.

Definition mode_name (m : KnowledgeMode) : string :=
  match m with
  | strict => "Strict RAG"
  | augmented => "Augmented"
  | expert => "Expert Analysis"
  end.

(** What the component reads of a [File]. *)
Record File : Type := { name : string; type : string }.

Record Document : Type :=
  { pdf_id : string; pdf_name : string; chunk_count : nat;
    pages : list nat }.

(** The parsed body of a response, with the fields the component reads.
    [success] is the truthiness of [data.success]; a field that may be
    missing is an [option]. *)
Record Data : Type :=
  { success : bool;
    error : option string;
    documents : option (list Document);
    answer : string;
    timestamp : string;
    knowledge_mode : string;
    sources_used : nat;
    search_results_count : nat;
    token_usage : option nat }.

(** [await response.json()] either yields the data or throws: the body
    is not JSON, or it is [null] and reading a property of it throws. *)
Inductive Body : Type :=
| Throws (message : string)
| Json (data : Data).

Record Response : Type :=
  { status : nat; statusText : string;
    contentType : option string;      (** [headers.get('content-type')] *)
    json : Body }.

(** [await fetch(...)] rejects (the network failed) or resolves. *)
Inductive Outcome : Type :=
| Rejected (message : string)
| Resolved (response : Response).

Inductive Request : Type :=
| GetDocuments                         (** GET    /api/v1/documents *)
| PostUpload (file : File)             (** POST   /api/v1/upload *)
| DeleteDocument (pdfId : string)      (** DELETE /api/v1/documents/:id *)
| PostChat (question : string) (knowledge_mode : KnowledgeMode).
                                       (** POST   /api/v1/chat *)

(** The value of a [try] block up to its first use of the data: the
    data, or the message of the error that reached [catch]. *)
Inductive Try : Type :=
| Returned (data : Data)
| Thrown (message : string).

(** [const response = await fetch(...); const data = await
    response.json();] *)
Definition fetch_json (o : Outcome) : Try :=
  match o with
  | Rejected m => Thrown m
  | Resolved r =>
      match json r with
      | Throws m => Thrown m
      | Json data => Returned data
      end
  end.

(** [!contentType || !contentType.includes('application/json')] *)
Definition not_json (r : Response) : bool :=
  match contentType r with
  | None => true
  | Some ct => negb (Js.truthy ct) ||
               negb (Js.includes "application/json" ct)
  end.

(** The same with the content-type test of [handleDeleteDocument]
    between the two awaits. *)
Definition fetch_json_checked (o : Outcome) : Try :=
  match o with
  | Rejected m => Thrown m
  | Resolved r =>
      if not_json r
      then Thrown ("Server returned non-JSON response: " +:+
                   pretty (status r) +:+ " " +:+ statusText r)
      else match json r with
           | Throws m => Thrown m
           | Json data => Returned data
           end
  end.

End Api.

(* ================================================================== *)
(** ** The component [PDFChatbot]: state, async tasks and handlers *)
(* ================================================================== *)

Module App.

Import Api.

Inductive Role : Type := user | assistant.

Record Metadata : Type :=
  { mode : string; sources : nat; searchResults : nat;
    tokenUsage : option nat }.

Record Message : Type :=
  { role : Role; content : string; timestamp : string;
    metadata : option Metadata }.

Record UploadProgress : Type := { total : nat; completed : nat }.

(** The [useState] cells of the component and the [dragCounter] ref.
    [renderError] records that a state updater threw while React was
    applying it, which unmounts the component. *)
Record State : Type :=
  { messages : list Message;
    inputMessage : string;
    documents : list Document;
    knowledgeMode : KnowledgeMode;
    isLoading : bool;
    uploadProgress : option UploadProgress;
    error : option string;
    showModeMenu : bool;
    typingTrigger : Z;
    isDragOver : bool;
    dragCounter : Z;
    renderError : bool }.

(** The first render: the initial values given to [useState]. *)
Definition initial : State :=
  {| messages := []; inputMessage := ""; documents := [];
     knowledgeMode := augmented; isLoading := false;
     uploadProgress := None; error := None; showModeMenu := false;
     typingTrigger := 0%Z; isDragOver := false; dragCounter := 0%Z;
     renderError := false |}.

(** *** Setters *)

(** [setMessages(prev => f(prev))] *)
Definition setMessages (f : list Message -> list Message) (s : State)
  : State :=
  {| messages := f (messages s); inputMessage := inputMessage s;
     documents := documents s; knowledgeMode := knowledgeMode s;
     isLoading := isLoading s; uploadProgress := uploadProgress s;
     error := error s; showModeMenu := showModeMenu s;
     typingTrigger := typingTrigger s; isDragOver := isDragOver s;
     dragCounter := dragCounter s; renderError := renderError s |}.

Definition setInputMessage (v : string) (s : State) : State :=
  {| messages := messages s; inputMessage := v;
     documents := documents s; knowledgeMode := knowledgeMode s;
     isLoading := isLoading s; uploadProgress := uploadProgress s;
     error := error s; showModeMenu := showModeMenu s;
     typingTrigger := typingTrigger s; isDragOver := isDragOver s;
     dragCounter := dragCounter s; renderError := renderError s |}.

Definition setDocuments (v : list Document) (s : State) : State :=
  {| messages := messages s; inputMessage := inputMessage s;
     documents := v; knowledgeMode := knowledgeMode s;
     isLoading := isLoading s; uploadProgress := uploadProgress s;
     error := error s; showModeMenu := showModeMenu s;
     typingTrigger := typingTrigger s; isDragOver := isDragOver s;
     dragCounter := dragCounter s; renderError := renderError s |}.

Definition setKnowledgeMode (v : KnowledgeMode) (s : State) : State :=
  {| messages := messages s; inputMessage := inputMessage s;
     documents := documents s; knowledgeMode := v;
     isLoading := isLoading s; uploadProgress := uploadProgress s;
     error := error s; showModeMenu := showModeMenu s;
     typingTrigger := typingTrigger s; isDragOver := isDragOver s;
     dragCounter := dragCounter s; renderError := renderError s |}.

Definition setIsLoading (v : bool) (s : State) : State :=
  {| messages := messages s; inputMessage := inputMessage s;
     documents := documents s; knowledgeMode := knowledgeMode s;
     isLoading := v; uploadProgress := uploadProgress s;
     error := error s; showModeMenu := showModeMenu s;
     typingTrigger := typingTrigger s; isDragOver := isDragOver s;
     dragCounter := dragCounter s; renderError := renderError s |}.

Definition setUploadProgress (v : option UploadProgress) (s : State)
  : State :=
  {| messages := messages s; inputMessage := inputMessage s;
     documents := documents s; knowledgeMode := knowledgeMode s;
     isLoading := isLoading s; uploadProgress := v;
     error := error s; showModeMenu := showModeMenu s;
     typingTrigger := typingTrigger s; isDragOver := isDragOver s;
     dragCounter := dragCounter s; renderError := renderError s |}.

Definition setError (v : option string) (s : State) : State :=
  {| messages := messages s; inputMessage := inputMessage s;
     documents := documents s; knowledgeMode := knowledgeMode s;
     isLoading := isLoading s; uploadProgress := uploadProgress s;
     error := v; showModeMenu := showModeMenu s;
     typingTrigger := typingTrigger s; isDragOver := isDragOver s;
     dragCounter := dragCounter s; renderError := renderError s |}.

Definition setShowModeMenu (v : bool) (s : State) : State :=
  {| messages := messages s; inputMessage := inputMessage s;
     documents := documents s; knowledgeMode := knowledgeMode s;
     isLoading := isLoading s; uploadProgress := uploadProgress s;
     error := error s; showModeMenu := v;
     typingTrigger := typingTrigger s; isDragOver := isDragOver s;
     dragCounter := dragCounter s; renderError := renderError s |}.

(** [setTypingTrigger(prev => f(prev))] *)
Definition setTypingTrigger (f : Z -> Z) (s : State) : State :=
  {| messages := messages s; inputMessage := inputMessage s;
     documents := documents s; knowledgeMode := knowledgeMode s;
     isLoading := isLoading s; uploadProgress := uploadProgress s;
     error := error s; showModeMenu := showModeMenu s;
     typingTrigger := f (typingTrigger s); isDragOver := isDragOver s;
     dragCounter := dragCounter s; renderError := renderError s |}.

Definition setIsDragOver (v : bool) (s : State) : State :=
  {| messages := messages s; inputMessage := inputMessage s;
     documents := documents s; knowledgeMode := knowledgeMode s;
     isLoading := isLoading s; uploadProgress := uploadProgress s;
     error := error s; showModeMenu := showModeMenu s;
     typingTrigger := typingTrigger s; isDragOver := v;
     dragCounter := dragCounter s; renderError := renderError s |}.

(** [dragCounter.current = v] *)
Definition setDragCounter (v : Z) (s : State) : State :=
  {| messages := messages s; inputMessage := inputMessage s;
     documents := documents s; knowledgeMode := knowledgeMode s;
     isLoading := isLoading s; uploadProgress := uploadProgress s;
     error := error s; showModeMenu := showModeMenu s;
     typingTrigger := typingTrigger s; isDragOver := isDragOver s;
     dragCounter := v; renderError := renderError s |}.

Definition setRenderError (v : bool) (s : State) : State :=
  {| messages := messages s; inputMessage := inputMessage s;
     documents := documents s; knowledgeMode := knowledgeMode s;
     isLoading := isLoading s; uploadProgress := uploadProgress s;
     error := error s; showModeMenu := showModeMenu s;
     typingTrigger := typingTrigger s; isDragOver := isDragOver s;
     dragCounter := dragCounter s; renderError := v |}.

(** [setUploadProgress(prev => ({ ...prev, completed: prev.completed +
    1 }))]; reading [completed] of [null] throws inside the updater. *)
Definition incrementCompleted (s : State) : State :=
  match uploadProgress s with
  | Some prev =>
      setUploadProgress
        (Some {| total := total prev; completed := completed prev + 1 |}) s
  | None => setRenderError true s
  end.

(** *** Async functions *)

(** The body of an [async] function: state updates in program order and
    one [Await] per network exchange, whose continuation is the code
    after it. *)
Inductive Task : Type :=
| Done
| Update (f : State -> State) (k : Task)
| Await (req : Request) (k : Outcome -> Task).

(** [await t; k] for an async function [t] called from another. *)
Fixpoint andThen (t k : Task) : Task :=
  match t with
  | Done => k
  | Update f t' => Update f (andThen t' k)
  | Await req c => Await req (fun o => andThen (c o) k)
  end.

(** [fetchDocuments]: the list is replaced when the data says
    [success]; the [catch] only logs. *)
Definition fetchDocuments : Task :=
  Await GetDocuments (fun o =>
    match fetch_json o with
    | Returned data =>
        if success data
        then Update (setDocuments (default [] (Api.documents data))) Done
        else Done
    | Thrown _ => Done
    end).

(** The filter of [processFiles]. *)
Definition isPdf (file : File) : bool :=
  String.eqb (type file) "application/pdf" ||
  Js.endsWith ".pdf" (Js.toLowerCase (name file)).

(** [for (const file of pdfFiles) { ... }] followed by [after]. *)
Fixpoint uploadEach (pdfFiles : list File) (after : Task) : Task :=
  match pdfFiles with
  | [] => after
  | file :: rest =>
      Await (PostUpload file) (fun o =>
        match fetch_json o with
        | Returned data =>
            if success data
            then Update incrementCompleted (uploadEach rest after)
            else Update
                   (setError
                      (Some ("Failed to upload " +:+ name file +:+ ": " +:+
                             Js.or_else (Api.error data) "Unknown error")))
                   (uploadEach rest after)
        | Thrown m =>
            Update
              (setError
                 (Some ("Error uploading " +:+ name file +:+ ": " +:+ m)))
              (uploadEach rest after)
        end)
  end.

Definition processFiles (files : list File) : Task :=
  let pdfFiles := List.filter isPdf files in
  if List.length pdfFiles =? 0
  then Update (setError (Some "Please upload PDF files only")) Done
  else
    Update (setUploadProgress
              (Some {| total := List.length pdfFiles; completed := 0 |}))
   (Update (setError None)
   (uploadEach pdfFiles
      (andThen fetchDocuments
         (Update (setUploadProgress None) Done)))).

(** [handleFileUpload]: [event.target.files] is [files]. *)
Definition handleFileUpload (files : list File) : Task :=
  if List.length files =? 0 then Done else processFiles files.

(** [handleDeleteDocument]; [confirmed] is the answer of
    [window.confirm]. *)
Definition handleDeleteDocument (confirmed : bool) (pdfId pdfName : string)
  : Task :=
  if negb confirmed then Done
  else
    Await (DeleteDocument pdfId) (fun o =>
      match fetch_json_checked o with
      | Returned data =>
          if success data
          then andThen fetchDocuments (Update (setError None) Done)
          else Update
                 (setError
                    (Some (Js.or_else (Api.error data)
                                      "Failed to delete document")))
                 Done
      | Thrown m =>
          Update (setError (Some ("Failed to delete document: " +:+ m)))
                 Done
      end).

(** The assistant message built from a successful chat response. *)
Definition assistantMessage (data : Data) : Message :=
  {| role := assistant;
     content := answer data;
     timestamp := Api.timestamp data;
     metadata :=
       Some {| mode := Api.knowledge_mode data;
               sources := sources_used data;
               searchResults := search_results_count data;
               tokenUsage := token_usage data |} |}.

(** [handleSendMessage], created in the render whose state is [render];
    [now] is [new Date().toISOString()]. The [finally] block runs after
    either branch. *)
Definition handleSendMessage (now : string) (render : State) : Task :=
  if negb (Js.truthy (Js.trim (inputMessage render))) || isLoading render
  then Done
  else
    let userMessage :=
      {| role := user; content := inputMessage render; timestamp := now;
         metadata := None |} in
    Update (setMessages (fun prev => prev ++ [userMessage]))
   (Update (setInputMessage "")
   (Update (setIsLoading true)
   (Update (setError None)
   (Await (PostChat (inputMessage render) (knowledgeMode render))
      (fun o =>
         andThen
           match fetch_json o with
           | Returned data =>
               if success data
               then Update
                      (setMessages
                         (fun prev => prev ++ [assistantMessage data]))
                      Done
               else Update
                      (setError
                         (Some (Js.or_else (Api.error data)
                                           "Failed to get response")))
                      Done
           | Thrown m => Update (setError (Some ("Error: " +:+ m))) Done
           end
           (Update (setIsLoading false) Done)))))).

(** [handleModeSelect] and [handleSidebarModeChange]. *)
Definition handleModeSelect (m : KnowledgeMode) (s : State) : State :=
  setTypingTrigger (fun prev => prev + 1)%Z
    (setShowModeMenu false (setKnowledgeMode m s)).

Definition handleSidebarModeChange (m : KnowledgeMode) (s : State)
  : State :=
  setTypingTrigger (fun prev => prev + 1)%Z (setKnowledgeMode m s).

(** *** Drag and drop *)

(** [handleDragEnter]; [items] is [e.dataTransfer.items.length], [None]
    when [e.dataTransfer.items] is missing. *)
Definition handleDragEnter (items : option nat) (s : State) : State :=
  let s1 := setDragCounter (dragCounter s + 1)%Z s in
  match items with
  | Some n => if 0 <? n then setIsDragOver true s1 else s1
  | None => s1
  end.

Definition handleDragLeave (s : State) : State :=
  let s1 := setDragCounter (dragCounter s - 1)%Z s in
  if (dragCounter s1 =? 0)%Z then setIsDragOver false s1 else s1.

(** [handleDragOver] only calls [preventDefault]. *)
Definition handleDragOver (s : State) : State := s.

(** [handleDrop]; [files] is [e.dataTransfer.files]. *)
Definition handleDrop (files : list File) : Task :=
  Update (setIsDragOver false)
 (Update (setDragCounter 0%Z)
    (if 0 <? List.length files then processFiles files else Done)).

(** *** Running a task *)

(** A task runs until its next suspension point. *)
Inductive Suspended : Type :=
| Finished
| Waiting (req : Request) (k : Outcome -> Task).

Fixpoint advance (t : Task) (s : State) : State * Suspended :=
  match t with
  | Done => (s, Finished)
  | Update f k => advance k (f s)
  | Await req k => (s, Waiting req k)
  end.

(** One task run alone against the outcomes [os] of its successive
    requests: the state reached, the requests issued, in order, and
    whether the task has returned. *)
Fixpoint run (t : Task) (os : list Outcome) (s : State)
  : State * list Request * bool :=
  match t with
  | Done => (s, [], true)
  | Update f k => run k os (f s)
  | Await req k =>
      match os with
      | [] => (s, [req], false)
      | o :: os' =>
          let '(s', reqs, fin) := run (k o) os' s in
          (s', req :: reqs, fin)
      end
  end.

(** *** Reading the answers of a batch *)

(** The component takes the request to have succeeded: the body was
    parsed and [data.success] is truthy. *)
Definition succeeded (o : Outcome) : bool :=
  match fetch_json o with
  | Returned data => success data
  | Thrown _ => false
  end.

Definition successes (os : list Outcome) : nat :=
  List.length (List.filter succeeded os).

(** The message [processFiles] gives to [setError] when the upload of
    [file] is answered by [o], if it gives one. *)
Definition uploadFailure (file : File) (o : Outcome) : option string :=
  match fetch_json o with
  | Returned data =>
      if success data then None
      else Some ("Failed to upload " +:+ name file +:+ ": " +:+
                 Js.or_else (Api.error data) "Unknown error")
  | Thrown m => Some ("Error uploading " +:+ name file +:+ ": " +:+ m)
  end.

(** The messages of the failed uploads, in the order of the batch. *)
Fixpoint failures (files : list File) (os : list Outcome) : list string :=
  match files, os with
  | file :: files', o :: os' =>
      match uploadFailure file o with
      | Some m => m :: failures files' os'
      | None => failures files' os'
      end
  | _, _ => []
  end.

(** The state of a batch of [files] that started in [s], when the answers
    [os] have come: the progress counts the successes and the error is
    the message of the last failure. *)
Definition progressed (files : list File) (os : list Outcome) (s : State)
  : State :=
  setError (last (failures files os))
    (setUploadProgress
       (Some {| total := List.length files; completed := successes os |})
       s).

(** The same for the request of [handleDeleteDocument], whose answer must
    also announce JSON. *)
Definition deleted (o : Outcome) : bool :=
  match fetch_json_checked o with
  | Returned data => success data
  | Thrown _ => false
  end.

(** The state [fetchDocuments] leaves when its request is answered by
    [o]. *)
Definition refreshed (o : Outcome) (s : State) : State :=
  fst (fst (run fetchDocuments [o] s)).

End App.

(* ================================================================== *)
(** ** The events of a session *)
(* ================================================================== *)

Module Session.

Import Api App.

(** The component between two events: its state and the requests that
    have been sent and not answered, each with the code that waits for
    the answer. *)
Record Sys : Type :=
  { state : State;
    pending : list (Request * (Outcome -> Task)) }.

Inductive Event : Type :=
| Send (now : string)           (** Enter in the textarea, send button *)
| ChangeInput (value : string)  (** [setInputMessage(e.target.value)] *)
| ModeSelect (m : KnowledgeMode)
| SidebarModeChange (m : KnowledgeMode)
| ToggleModeMenu                (** [setShowModeMenu(!showModeMenu)] *)
| DismissError                  (** [setError(null)] *)
| FileUpload (files : list File)
| DragEnter (items : option nat)
| DragLeave
| DragOver
| Drop (files : list File)
| Delete (confirmed : bool) (pdfId pdfName : string)
| Settle (i : nat) (o : Outcome).
    (** the [i]-th pending request is answered by [o] *)

(** A handler's task runs up to its first suspension point. *)
Definition launch (t : Task) (sys : Sys) : Sys :=
  match advance t (state sys) with
  | (s, Finished) => {| state := s; pending := pending sys |}
  | (s, Waiting req k) =>
      {| state := s; pending := pending sys ++ [(req, k)] |}
  end.

Definition sync (f : State -> State) (sys : Sys) : Sys :=
  {| state := f (state sys); pending := pending sys |}.

(** Every handler is the one of the latest render: it reads
    [state sys]. *)
Definition step (sys : Sys) (e : Event) : Sys :=
  match e with
  | Send now => launch (handleSendMessage now (state sys)) sys
  | ChangeInput v => sync (setInputMessage v) sys
  | ModeSelect m => sync (handleModeSelect m) sys
  | SidebarModeChange m => sync (handleSidebarModeChange m) sys
  | ToggleModeMenu =>
      sync (setShowModeMenu (negb (showModeMenu (state sys)))) sys
  | DismissError => sync (setError None) sys
  | FileUpload files => launch (handleFileUpload files) sys
  | DragEnter items => sync (handleDragEnter items) sys
  | DragLeave => sync handleDragLeave sys
  | DragOver => sync handleDragOver sys
  | Drop files => launch (handleDrop files) sys
  | Delete confirmed pdfId pdfName =>
      launch (handleDeleteDocument confirmed pdfId pdfName) sys
  | Settle i o =>
      match pending sys !! i with
      | Some (_, k) =>
          launch (k o)
            {| state := state sys; pending := delete i (pending sys) |}
      | None => sys
      end
  end.

Definition exec (sys : Sys) (evs : list Event) : Sys :=
  fold_left step evs sys.

(** The mount effect [useEffect(() => { fetchDocuments(); }, [])]. *)
Definition boot : Sys :=
  launch fetchDocuments {| state := initial; pending := [] |}.

Definition is_chat (req : Request) : bool :=
  match req with PostChat _ _ => true | _ => false end.

(** The chat requests in flight. *)
Definition chat_in_flight (sys : Sys) : list Request :=
  List.filter is_chat (map fst (pending sys)).





End Session.

(* ================================================================== *)
(** ** The typewriter hook [useTypewriter] *)
(* ================================================================== *)

Module Typewriter.

(** The dependency array [[text, speed, trigger]]. *)
Record Deps : Type := { text : string; speed : nat; trigger : Z }.

(** React compares the dependencies one by one. *)
Definition same_deps (a b : Deps) : bool :=
  String.eqb (text a) (text b) && (speed a =? speed b) &&
  (trigger a =? trigger b)%Z.

(** The function given to [setInterval]: it belongs to the hook call
    [owner] of the component, whose setters it calls, it captured the
    [text] of its effect and it owns the variable [index]. *)
Record Callback : Type :=
  { owner : nat; delay : nat; captured : string; index : nat }.

(** The timers of the page: the active intervals by handle. *)
Record Timers : Type := { active : gmap nat Callback; next_id : nat }.

Definition no_timers : Timers := {| active := ∅; next_id := 1 |}.

Definition setInterval (cb : Callback) (T : Timers) : nat * Timers :=
  (next_id T,
   {| active := <[next_id T := cb]> (active T);
      next_id := S (next_id T) |}).

Definition clearInterval (id : nat) (T : Timers) : Timers :=
  {| active := delete id (active T); next_id := next_id T |}.

(** The two state cells of one hook call, and of its last effect the
    dependencies it ran with and the interval its cleanup clears. *)
Record Hook : Type :=
  { displayedText : string;
    isTyping : bool;
    effect : option (Deps * nat) }.

(** [useState('')], [useState(true)], no effect yet. *)
Definition fresh : Hook :=
  {| displayedText := ""; isTyping := true; effect := None |}.

(** The effect runs on mount and when a dependency changed. *)
Definition changed (d : Deps) (h : Hook) : bool :=
  match effect h with
  | Some (d', _) => negb (same_deps d' d)
  | None => true
  end.

(** [return () => clearInterval(interval)] of the previous effect. *)
Definition cleanup (h : Hook) (T : Timers) : Timers :=
  match effect h with
  | Some (_, id) => clearInterval id T
  | None => T
  end.

(** The interval function of the effect run with [d] by the hook call
    [slot], when its [index] is [k]. *)
Definition callback (slot : nat) (d : Deps) (k : nat) : Callback :=
  {| owner := slot; delay := speed d; captured := text d; index := k |}.

(** The body of the effect. *)
Definition run_effect (slot : nat) (d : Deps) (T : Timers)
  : Hook * Timers :=
  let '(id, T') := setInterval (callback slot d 0) T in
  ({| displayedText := ""; isTyping := true; effect := Some (d, id) |},
   T').

Definition useEffect (slot : nat) (d : Deps) (h : Hook) (T : Timers)
  : Hook * Timers :=
  if changed d h then run_effect slot d (cleanup h T) else (h, T).

(** One call of the interval's function, [id] being its own handle. *)
Definition fire (id : nat) (cb : Callback) (h : Hook) (T : Timers)
  : Hook * Timers :=
  if index cb <? Js.length (captured cb)
  then ({| displayedText := Js.slice0 (index cb + 1) (captured cb);
           isTyping := isTyping h; effect := effect h |},
        {| active :=
             <[id := {| owner := owner cb; delay := delay cb;
                        captured := captured cb;
                        index := index cb + 1 |}]> (active T);
           next_id := next_id T |})
  else ({| displayedText := displayedText h; isTyping := false;
           effect := effect h |},
        clearInterval id T).

(** *** One hook call in a component of its own *)

Record Instance : Type := { hook : Hook; timers : Timers }.

Inductive Event : Type :=
| Render (d : Deps)   (** a render with these arguments, then effects *)
| Tick (id : nat).    (** the timer [id] is due *)

Definition step (i : Instance) (e : Event) : Instance :=
  match e with
  | Render d =>
      let '(h, T) := useEffect 0 d (hook i) (timers i) in
      {| hook := h; timers := T |}
  | Tick id =>
      match active (timers i) !! id with
      | Some cb =>
          let '(h, T) := fire id cb (hook i) (timers i) in
          {| hook := h; timers := T |}
      | None => i
      end
  end.

Definition exec (i : Instance) (evs : list Event) : Instance :=
  fold_left step evs i.

Definition mount (d : Deps) : Instance :=
  step {| hook := fresh; timers := no_timers |} (Render d).




End Typewriter.

(* ================================================================== *)
(** ** The empty-state banner: two chained typewriters *)
(* ================================================================== *)

Module Banner.

Import Typewriter.

Definition titleText : string := "Ready to chat with your PDFs".

Definition descriptionText (m : Api.KnowledgeMode) : string :=
  "Upload some PDF documents and ask questions. I'll help you find information using "
  +:+ Api.mode_name m +:+ " mode.".

(** The cells of the component the banner depends on, the two hook
    calls and the timers of the page. *)
Record Banner : Type :=
  { app : App.State;
    title : Hook;
    description : Hook;
    timers : Timers }.

(** [useTypewriter(titleText, 40, typingTrigger)] *)
Definition titleDeps (b : Banner) : Deps :=
  {| text := titleText; speed := 40;
     trigger := App.typingTrigger (app b) |}.

(** [useTypewriter(descriptionText, 20, isTitleTyping ? -1 :
    typingTrigger)] *)
Definition descriptionDeps (b : Banner) : Deps :=
  {| text := descriptionText (App.knowledgeMode (app b)); speed := 20;
     trigger := if isTyping (title b) then (-1)%Z
                else App.typingTrigger (app b) |}.

(** One render and the effects it schedules: the dependencies of both
    hooks are computed from the state of this render; React then runs
    the cleanups of the effects that are due, in hook order, and then
    their bodies. *)
Definition render_pass (b : Banner) : Banner :=
  let dT := titleDeps b in
  let dD := descriptionDeps b in
  let cT := changed dT (title b) in
  let cD := changed dD (description b) in
  let T1 := if cT then cleanup (title b) (timers b) else timers b in
  let T2 := if cD then cleanup (description b) T1 else T1 in
  let '(t, T3) := if cT then run_effect 0 dT T2 else (title b, T2) in
  let '(d, T4) := if cD then run_effect 1 dD T3
                  else (description b, T3) in
  {| app := app b; title := t; description := d; timers := T4 |}.

(** The effects set state, which renders again: two passes reach a
    state that a further render leaves alone
    ([render_pass_settle] below). *)
Definition settle (b : Banner) : Banner := render_pass (render_pass b).

Inductive Event : Type :=
| Tick (id : nat)
| ModeSelect (m : Api.KnowledgeMode)
| SidebarModeChange (m : Api.KnowledgeMode).

Definition with_app (f : App.State -> App.State) (b : Banner) : Banner :=
  {| app := f (app b); title := title b; description := description b;
     timers := timers b |}.

(** The timer [id] calls the setters of the hook call that made it. *)
Definition tick (id : nat) (b : Banner) : Banner :=
  match active (timers b) !! id with
  | Some cb =>
      if owner cb =? 0
      then let '(h, T) := fire id cb (title b) (timers b) in
           {| app := app b; title := h; description := description b;
              timers := T |}
      else let '(h, T) := fire id cb (description b) (timers b) in
           {| app := app b; title := title b; description := h;
              timers := T |}
  | None => b
  end.

Definition step (b : Banner) (e : Event) : Banner :=
  match e with
  | Tick id => settle (tick id b)
  | ModeSelect m => settle (with_app (App.handleModeSelect m) b)
  | SidebarModeChange m =>
      settle (with_app (App.handleSidebarModeChange m) b)
  end.

Definition exec (b : Banner) (evs : list Event) : Banner :=
  fold_left step evs b.

Definition mount : Banner :=
  settle {| app := App.initial; title := fresh; description := fresh;
            timers := no_timers |}.

(** What the banner shows (the four expressions of the JSX). *)
Record View : Type :=
  { titleShown : string;
    titleCursor : bool;
    descriptionShown : string;
    descriptionCursor : bool }.

Definition view (b : Banner) : View :=
  let isTitleTyping := isTyping (title b) in
  let displayedDescription := displayedText (description b) in
  {| titleShown := displayedText (title b);
     titleCursor := isTitleTyping;
     descriptionShown :=
       if isTitleTyping then "" else displayedDescription;
     descriptionCursor :=
       negb isTitleTyping &&
       (Js.length displayedDescription <?
        Js.length (descriptionText (App.knowledgeMode (app b)))) |}.

(** No effect is due: a render changes nothing. *)
Definition quiescent (b : Banner) : Prop :=
  changed (titleDeps b) (title b) = false /\
  changed (descriptionDeps b) (description b) = false.

(** Every state of the banner is settled and its trigger has only been
    incremented. *)
Definition stable (b : Banner) : Prop :=
  quiescent b /\ (0 <= App.typingTrigger (app b))%Z.


End Banner.

(* ================================================================== *)
(** ** Drag and drop over the main area *)
(* ================================================================== *)

Module Drag.

Import App.

Inductive Event : Type :=
| Enter (items : option nat)
| Leave
| Over
| Drop (files : list Api.File).

(** The state right after the handler has run; for a drop, when
    [handleDrop] has reached its first [await] or has returned. *)
Definition step (s : State) (e : Event) : State :=
  match e with
  | Enter items => handleDragEnter items s
  | Leave => handleDragLeave s
  | Over => handleDragOver s
  | Drop files => fst (advance (handleDrop files) s)
  end.

Definition exec (s : State) (evs : list Event) : State :=
  fold_left step evs s.

(** The events that came after the last drop. *)
Definition since_drop (evs : list Event) : list Event :=
  fold_left (fun acc e => match e with
                          | Drop _ => []
                          | _ => acc ++ [e]
                          end) evs [].

Definition is_enter (e : Event) : bool :=
  match e with Enter _ => true | _ => false end.

Definition is_leave (e : Event) : bool :=
  match e with Leave => true | _ => false end.

Definition count (p : Event -> bool) (evs : list Event) : Z :=
  Z.of_nat (List.length (List.filter p evs)).

End Drag.

(* ================================================================== *)
(** ** Sample answers of the backend *)
(* ================================================================== *)

Module Sample.

Import Api.

(** A body that carries nothing but [success] and, maybe, [error]. *)
Definition data (ok : bool) (err : option string) : Data :=
  {| success := ok; error := err; documents := None; answer := "";
     timestamp := ""; knowledge_mode := ""; sources_used := 0;
     search_results_count := 0; token_usage := None |}.

Definition respond (d : Data) : Outcome :=
  Resolved {| status := 200; statusText := "OK";
              contentType := Some "application/json"; json := Json d |}.

Definition ok : Outcome := respond (data true None).

Definition failed (err : string) : Outcome :=
  respond (data false (Some err)).

Definition listing (docs : list Document) : Outcome :=
  respond {| success := true; error := None; documents := Some docs;
             answer := ""; timestamp := ""; knowledge_mode := "";
             sources_used := 0; search_results_count := 0;
             token_usage := None |}.

Definition reply (text time mode : string) : Outcome :=
  respond {| success := true; error := None; documents := None;
             answer := text; timestamp := time; knowledge_mode := mode;
             sources_used := 2; search_results_count := 5;
             token_usage := Some 120 |}.

Definition pdf (n : string) : File :=
  {| name := n; type := "application/pdf" |}.

Definition doc (id n : string) : Document :=
  {| pdf_id := id; pdf_name := n; chunk_count := 1; pages := [1] |}.

End Sample.

(* ================================================================== *)
(** ** The controls of the page *)
(* ================================================================== *)

Module Controls.

Import Api App.

(** [disabled={!inputMessage.trim() || isLoading || documents.length ===
    0}] of the send button. *)
Definition sendDisabled (s : State) : bool :=
  negb (Js.truthy (Js.trim (inputMessage s))) || isLoading s ||
  (List.length (documents s) =? 0).

(** [disabled={isLoading || documents.length === 0}] of the textarea. *)
Definition inputDisabled (s : State) : bool :=
  isLoading s || (List.length (documents s) =? 0).

(** [disabled={uploadProgress !== null}] of the two upload buttons, which
    open the file dialog. *)
Definition uploadDisabled (s : State) : bool :=
  match uploadProgress s with Some _ => true | None => false end.

(** [handleKeyPress]: [key] is [e.key], [shiftKey] is [e.shiftKey]. *)
Definition handleKeyPress (key : string) (shiftKey : bool) (now : string)
  (render : State) : Task :=
  if String.eqb key "Enter" && negb shiftKey
  then handleSendMessage now render
  else Done.

End Controls.

(* ================================================================== *)
(** ** Streams of drag events *)
(* ================================================================== *)

Module DragStream.

Import App Drag.

(** Every enter event carries at least one item. *)
Definition with_items (evs : list Event) : bool :=
  forallb (fun e => match e with
                    | Enter (Some n) => 0 <? n
                    | Enter None => false
                    | _ => true
                    end) evs.

(** The counter is at least 0 in [s] and after each of the events. *)
Fixpoint never_negative (s : State) (evs : list Event) : bool :=
  (0 <=? dragCounter s)%Z &&
  match evs with
  | [] => true
  | e :: rest => never_negative (step s e) rest
  end.

End DragStream.

(* ================================================================== *)
(** ** Unmounting *)
(* ================================================================== *)

Module Lifecycle.

Import Typewriter.

(** The hook's component is unmounted: React runs the cleanup of the last
    effect. *)
Definition unmount (i : Instance) : Instance :=
  {| hook := hook i; timers := cleanup (hook i) (timers i) |}.

(** A mounted hook is in one of two conditions: typing, with the first
    [k] units of the text of its effect shown and its interval, alone
    active, at [k]; or done, with the whole text shown and no interval. *)
Definition consistent (i : Instance) : Prop :=
  exists (d : Deps) (id : nat),
    effect (hook i) = Some (d, id) /\
    ((isTyping (hook i) = true /\
      exists k, k <= Js.length (text d) /\
                displayedText (hook i) = Js.slice0 k (text d) /\
                active (timers i) = {[ id := callback 0 d k ]}) \/
     (isTyping (hook i) = false /\
      displayedText (hook i) = text d /\
      active (timers i) = ∅)).

End Lifecycle.

(* ================================================================== *)
(** ** The timers of the banner *)
(* ================================================================== *)

Module BannerTimers.

Import Typewriter Banner.

(** Every active timer is the interval of the last effect of one of the
    two hook calls, which is typing; the handles of the effects are
    distinct and below the next handle. *)
Definition owned (b : Banner) : Prop :=
  (forall id cb, active (timers b) !! id = Some cb ->
     (exists d k, effect (title b) = Some (d, id) /\
                  cb = callback 0 d k /\ isTyping (title b) = true) \/
     (exists d k, effect (description b) = Some (d, id) /\
                  cb = callback 1 d k /\
                  isTyping (description b) = true)) /\
  (forall d id, effect (title b) = Some (d, id) ->
                id < next_id (timers b)) /\
  (forall d id, effect (description b) = Some (d, id) ->
                id < next_id (timers b)) /\
  (forall d d' id id', effect (title b) = Some (d, id) ->
                       effect (description b) = Some (d', id') ->
                       id <> id').

End BannerTimers.

(* ================================================================== *)
(** ** Turns of the conversation *)
(* ================================================================== *)

Module Turns.

Import Api App Session.

(** Every update of a task satisfies [U] and every request [R]. *)
Inductive Every (U : (State -> State) -> Prop) (R : Request -> Prop)
  : Task -> Prop :=
| every_done : Every U R Done
| every_update (f : State -> State) (k : Task) :
    U f -> Every U R k -> Every U R (Update f k)
| every_await (req : Request) (k : Outcome -> Task) :
    R req -> (forall o, Every U R (k o)) -> Every U R (Await req k).

(** An update that touches neither the history nor [isLoading]. *)
Definition keeps_turn (f : State -> State) : Prop :=
  forall s, messages (f s) = messages s /\ isLoading (f s) = isLoading s.

(** A task that has no part in the conversation. *)
Definition Bystander : Task -> Prop :=
  Every keeps_turn (fun req => is_chat req = false).

(** A task that ends a turn in whatever state it runs: it returns with
    [isLoading] false and the history as it was, or with one assistant
    message more. *)
Definition TurnEnd (t : Task) : Prop :=
  forall s, exists s',
    advance t s = (s', Finished) /\
    isLoading s' = false /\
    (messages s' = messages s \/
     exists a, role a = assistant /\ messages s' = messages s ++ [a]).

Definition waiting_turn (e : Request * (Outcome -> Task)) : Prop :=
  if is_chat (fst e) then forall o, TurnEnd (snd e o)
  else forall o, Bystander (snd e o).

(** No assistant message opens the list or follows another one;
    [after_user] tells whether the message before the list is a user
    message. *)
Fixpoint paired_from (after_user : bool) (msgs : list Message) : bool :=
  match msgs with
  | [] => true
  | m :: rest =>
      match role m with
      | user => paired_from true rest
      | assistant => after_user && paired_from false rest
      end
  end.

Definition paired (msgs : list Message) : bool := paired_from false msgs.

Definition turn_ok (sys : Sys) : Prop :=
  Forall waiting_turn (pending sys) /\
  List.length (chat_in_flight sys) <= 1 /\
  (isLoading (state sys) = true <-> chat_in_flight sys <> []) /\
  paired (messages (state sys)) = true /\
  (forall q m,
     In (PostChat q m) (chat_in_flight sys) ->
     exists pre u,
       messages (state sys) = pre ++ [u] /\ role u = user /\ content u = q).

End Turns.

(* ================================================================== *)
(** ** Where the document list is replaced *)
(* ================================================================== *)

Module Refetch.

Import Api App Session.

Definition is_get (req : Request) : bool :=
  match req with GetDocuments => true | _ => false end.

(** A task that leaves the document list alone, but for this: what runs
    on a successful answer to a request for the list may start by
    replacing the list. [fresh] tells whether the task runs on such an
    answer. *)
Inductive Refetching : bool -> Task -> Prop :=
| refetching_done (fresh : bool) : Refetching fresh Done
| refetching_update (fresh : bool) (f : State -> State) (k : Task) :
    (forall s, documents (f s) = documents s) ->
    Refetching false k -> Refetching fresh (Update f k)
| refetching_replace (docs : list Document) (k : Task) :
    Refetching false k -> Refetching true (Update (setDocuments docs) k)
| refetching_await (fresh : bool) (req : Request) (k : Outcome -> Task) :
    (forall o, Refetching (is_get req && succeeded o) (k o)) ->
    Refetching fresh (Await req k).

Definition waiting_refetch (e : Request * (Outcome -> Task)) : Prop :=
  forall o, Refetching (is_get (fst e) && succeeded o) (snd e o).

End Refetch.

(* ================================================================== *)
(** ** Batches started from the file dialog *)
(* ================================================================== *)

Module Gate.

Import Api App Session Turns Controls.

(** Files come through the file dialog only, and only while the buttons
    that open it are enabled; nothing is dropped. *)
Fixpoint gated (sys : Sys) (evs : list Event) : bool :=
  match evs with
  | [] => true
  | e :: rest =>
      match e with
      | FileUpload _ => negb (uploadDisabled (state sys))
      | Drop files => List.length files =? 0
      | _ => true
      end && gated (step sys e) rest
  end.

(** An update that touches neither the progress nor [renderError]. *)
Definition keeps_progress (f : State -> State) : Prop :=
  forall s, uploadProgress (f s) = uploadProgress s /\
            renderError (f s) = renderError s.

(** A task that has no part in a batch. *)
Definition Outsider : Task -> Prop := Every keeps_progress (fun _ => True).

(** The rest of a batch that counts at most [n] more successes before it
    resets the progress. *)
Inductive Batch : nat -> Task -> Prop :=
| batch_end (n : nat) (k : Task) :
    Outsider k -> Batch n (Update (setUploadProgress None) k)
| batch_count (n : nat) (k : Task) :
    Batch n k -> Batch (S n) (Update incrementCompleted k)
| batch_update (n : nat) (f : State -> State) (k : Task) :
    keeps_progress f -> Batch n k -> Batch n (Update f k)
| batch_await (n : nat) (req : Request) (k : Outcome -> Task) :
    (forall o, Batch n (k o)) -> Batch n (Await req k).

Definition waiting_out (e : Request * (Outcome -> Task)) : Prop :=
  forall o, Outsider (snd e o).

Definition waiting_batch (n : nat) (e : Request * (Outcome -> Task))
  : Prop :=
  forall o, Batch n (snd e o).

(** No updater has thrown, and either no batch is in flight and the
    progress is [null], or one batch is, whose room for successes fits the
    progress. *)
Definition upload_ok (sys : Sys) : Prop :=
  renderError (state sys) = false /\
  ((uploadProgress (state sys) = None /\
    Forall waiting_out (pending sys)) \/
   (exists p n l1 e l2,
      uploadProgress (state sys) = Some p /\
      completed p + n <= total p /\
      pending sys = l1 ++ e :: l2 /\
      waiting_batch n e /\
      Forall waiting_out l1 /\ Forall waiting_out l2)).

End Gate.

(* ================================================================== *)
(** * Properties *)
(* ================================================================== *)

(** ** Strings *)

Lemma slice0_length (n : nat) (s : string) :
  n <= Js.length s -> Js.length (Js.slice0 n s) = n.
Proof.
  revert s; induction n as [|n IH]; intros [|c s]; simpl; intros H;
    try reflexivity; try lia.
  unfold Js.length in *. simpl. rewrite IH; [reflexivity | lia].
Qed.

Lemma slice0_all (s : string) : Js.slice0 (Js.length s) s = s.
Proof.
  induction s as [|c s IH]; simpl; [reflexivity|].
  unfold Js.length in *. now rewrite IH.
Qed.

Lemma trimStart_all_whitespace (s : string) :
  Js.all_whitespace s = true -> Js.trimStart s = "".
Proof.
  induction s as [|c s IH]; simpl; [reflexivity|].
  destruct (Js.is_whitespace c); simpl; [exact IH | discriminate].
Qed.



Lemma trimEnd_head (s : string) (c : ascii) (r : string) :
  Js.trimEnd s = String c r -> exists s', s = String c s'.
Proof.
  destruct s as [|d s]; simpl; [discriminate|].
  destruct (Js.trimEnd s); [destruct (Js.is_whitespace d)|];
    intros H; inversion H; subst; eauto.
Qed.




(** ** The content renderer *)

Section CodeContent.

Import Render.

Lemma codeContent_line_feed (s : string) :
  codeContent (s +:+ String Js.LF "") = s.
Proof.
  induction s as [|c s IH]; [reflexivity|].
  destruct s as [|d s]; [reflexivity|].
  simpl in *. now rewrite IH.
Qed.

Lemma codeContent_other (s : string) :
  Js.endsWith (String Js.LF "") s = false -> codeContent s = s.
Proof.
  induction s as [|c s IH]; [reflexivity|].
  cbn [Js.endsWith codeContent]. intros H.
  apply orb_false_iff in H as [H1 H2].
  destruct s as [|d s].
  - simpl in H1. destruct (Ascii.eqb_spec c Js.LF) as [->|]; [|reflexivity].
    discriminate.
  - now rewrite (IH H2).
Qed.

End CodeContent.

Lemma append_nil_l (r : string) : "" +:+ r = r.
Proof. reflexivity. Qed.

Lemma append_cons (c : ascii) (s r : string) :
  String c s +:+ r = String c (s +:+ r).
Proof. reflexivity. Qed.

Lemma strip_prefix_inv (p s r : string) :
  Js.strip_prefix p s = Some r -> s = p +:+ r.
Proof.
  revert s; induction p as [|a p IH]; intros [|b s]; simpl; intros H;
    rewrite ?append_nil_l, ?append_cons; try congruence.
  destruct (Ascii.eqb_spec a b) as [->|]; [|discriminate].
  now rewrite (IH _ H).
Qed.

Lemma strip_prefix_app (p r : string) : Js.strip_prefix p (p +:+ r) = Some r.
Proof.
  induction p as [|a p IH]; rewrite ?append_nil_l, ?append_cons; simpl;
    [now destruct r|].
  now rewrite Ascii.eqb_refl.
Qed.

Lemma includes_tail (c : ascii) (p s : string) :
  Js.includes p s = true -> Js.includes p (String c s) = true.
Proof.
  cbn [Js.includes]. intros ->.
  now case (Js.strip_prefix p (String c s)).
Qed.

Lemma includes_app (p a b : string) : Js.includes p (a +:+ p +:+ b) = true.
Proof.
  induction a as [|c a IH]; rewrite ?append_nil_l, ?append_cons.
  - destruct (p +:+ b) eqn:E; simpl; rewrite <- ?E, strip_prefix_app;
      reflexivity.
  - now apply includes_tail.
Qed.

Lemma take_word_split (s : string) :
  exists r, s = Render.take_word s +:+ r /\
            forallb Render.is_word_char (list_ascii_of_string (Render.take_word s)) = true.
Proof.
  induction s as [|c s [r [IH1 IH2]]]; simpl.
  - now exists "".
  - destruct (Render.is_word_char c) eqn:W; simpl.
    + exists r. rewrite W, IH2, append_cons.
      split; [congruence | reflexivity].
    + now exists (String c s).
Qed.

(** The language found in a class name is a non-empty run of word
    characters that follows [language-] in it. *)
Lemma language_exec_sound (s w : string) :
  Render.language_exec s = Some w ->
  w <> "" /\
  forallb Render.is_word_char (list_ascii_of_string w) = true /\
  Js.includes ("language-" +:+ w) s = true.
Proof.
  induction s as [|c s IH]; [discriminate|].
  cbn [Render.language_exec].
  destruct (Js.strip_prefix "language-" (String c s)) as [rest|] eqn:P.
  - destruct (Render.take_word rest) as [|d w'] eqn:W.
    + intros H. destruct (IH H) as (? & ? & I). repeat split; try assumption.
      now apply includes_tail.
    + intros [= <-]. destruct (take_word_split rest) as (r & E1 & E2).
      rewrite W in E1, E2. repeat split; [discriminate | exact E2 |].
      apply strip_prefix_inv in P. rewrite P, E1.
      change (Js.includes ("language-" +:+ String d w')
                ("" +:+ (("language-" +:+ String d w') +:+ r)) = true).
      apply includes_app.
  - intros H. destruct (IH H) as (? & ? & I). repeat split; try assumption.
    now apply includes_tail.
Qed.




(** ** Drag and drop *)

Lemma handleDrop_sync (files : list Api.File) (s : App.State) :
  App.dragCounter (fst (App.advance (App.handleDrop files) s)) = 0%Z /\
  App.isDragOver (fst (App.advance (App.handleDrop files) s)) = false.
Proof.
  unfold App.handleDrop. cbn [App.advance].
  destruct (0 <? List.length files); [|split; reflexivity].
  unfold App.processFiles.
  destruct (List.filter App.isPdf files) as [|f fs]; split; reflexivity.
Qed.

Lemma drag_exec_snoc (s : App.State) (evs : list Drag.Event) (e : Drag.Event) :
  Drag.exec s (evs ++ [e]) = Drag.step (Drag.exec s evs) e.
Proof. unfold Drag.exec. now rewrite fold_left_app. Qed.

Lemma since_drop_snoc (evs : list Drag.Event) (e : Drag.Event) :
  Drag.since_drop (evs ++ [e]) =
  match e with
  | Drag.Drop _ => []
  | _ => Drag.since_drop evs ++ [e]
  end.
Proof. unfold Drag.since_drop. now rewrite fold_left_app. Qed.

Lemma drag_count_snoc (p : Drag.Event -> bool) (evs : list Drag.Event)
  (e : Drag.Event) :
  Drag.count p (evs ++ [e]) =
  (Drag.count p evs + if p e then 1 else 0)%Z.
Proof.
  unfold Drag.count. rewrite List.filter_app, List.length_app. simpl.
  destruct (p e); simpl; lia.
Qed.

(** C7, as the claim states it, fails: nothing keeps the counter from
    going below 0; a leave event that no enter event precedes makes it
    -1. *)
Lemma drag_depth_negative :
  App.dragCounter (Drag.exec App.initial [Drag.Leave]) = (-1)%Z.
Proof. reflexivity. Qed.

(** C7 (amended): right after any drop the depth is 0 and [isDragOver] is
    false, whatever came before; in general the depth is the number of
    enter events less the number of leave events since the last drop (or
    since the mount), so that it is at least 0 exactly when the leave
    events have not outnumbered the enter events. *)
Theorem drag_depth :
  (forall (s : App.State) (files : list Api.File),
     App.dragCounter (Drag.step s (Drag.Drop files)) = 0%Z /\
     App.isDragOver (Drag.step s (Drag.Drop files)) = false) /\
  (forall evs : list Drag.Event,
     let recent := Drag.since_drop evs in
     App.dragCounter (Drag.exec App.initial evs) =
       (Drag.count Drag.is_enter recent - Drag.count Drag.is_leave recent)%Z
     /\ ((0 <= App.dragCounter (Drag.exec App.initial evs))%Z <->
         (Drag.count Drag.is_leave recent <=
          Drag.count Drag.is_enter recent)%Z)).
Proof.
  split.
  - intros s files. apply handleDrop_sync.
  - intros evs recent.
    assert (E : App.dragCounter (Drag.exec App.initial evs) =
                (Drag.count Drag.is_enter recent -
                 Drag.count Drag.is_leave recent)%Z).
    { subst recent. induction evs as [|e evs IH] using rev_ind;
        [reflexivity|].
      rewrite drag_exec_snoc, since_drop_snoc.
      destruct e as [items| | |files].
      - rewrite !drag_count_snoc. simpl.
        assert (D : forall s, App.dragCounter (App.handleDragEnter items s)
                              = (App.dragCounter s + 1)%Z).
        { intros s. unfold App.handleDragEnter.
          destruct items as [n|]; [destruct (0 <? n)|]; reflexivity. }
        rewrite D, IH. lia.
      - rewrite !drag_count_snoc. simpl.
        assert (D : forall s, App.dragCounter (App.handleDragLeave s)
                              = (App.dragCounter s - 1)%Z).
        { intros s. unfold App.handleDragLeave.
          destruct (_ =? _)%Z; reflexivity. }
        rewrite D, IH. lia.
      - rewrite !drag_count_snoc. simpl. unfold App.handleDragOver.
        rewrite IH. lia.
      - simpl. apply handleDrop_sync. }
    split; [exact E | rewrite E; lia].
Qed.

(** ** Tasks *)

Section Tasks.

Import Api App.

Lemma run_andThen_done (t k : Task) :
  forall (os : list Outcome) (s : State),
    run (andThen t k) os s =
    match run t os s with
    | (s', reqs, true) =>
        let '(s'', reqs', fin) :=
          run k (drop (List.length reqs) os) s' in
        (s'', reqs ++ reqs', fin)
    | r => r
    end.
Proof.
  induction t as [|f t IH|req c IH]; intros os s; cbn [andThen run].
  - rewrite drop_0. now destruct (run k os s) as [[? ?] ?].
  - apply IH.
  - destruct os as [|o os]; [reflexivity|].
    rewrite IH. destruct (run (c o) os s) as [[s' reqs] [|]];
      [|reflexivity].
    cbn [List.length drop].
    now destruct (run k (drop (List.length reqs) os) s') as [[? ?] ?].
Qed.

(** [fetchDocuments] answered by [o]: one request, and the list is
    replaced only when the data says [success]. *)
Lemma run_fetchDocuments (o : Outcome) (os : list Outcome) (s : State) :
  run fetchDocuments (o :: os) s = (refreshed o s, [GetDocuments], true).
Proof.
  unfold refreshed, fetchDocuments. cbn [run].
  destruct (fetch_json o) as [data|m]; [|reflexivity].
  destruct (success data); reflexivity.
Qed.

Lemma refreshed_cases (o : Outcome) (s : State) :
  refreshed o s =
  match fetch_json o with
  | Returned data =>
      if success data
      then setDocuments (default [] (Api.documents data)) s
      else s
  | Thrown _ => s
  end.
Proof.
  unfold refreshed, fetchDocuments. cbn [run].
  destruct (fetch_json o) as [data|m]; [|reflexivity].
  destruct (success data); reflexivity.
Qed.

Lemma successes_cons (o : Outcome) (os : list Outcome) :
  successes (o :: os) = (if succeeded o then 1 else 0) + successes os.
Proof. unfold successes. simpl. now destruct (succeeded o). Qed.

(** Both sides run [after] on [os']: it is enough that they start it in
    the same state. *)
Ltac same_run after os' :=
  match goal with
  | |- ?L = ?R =>
      match L with
      | context [run after os' ?a] =>
          match R with
          | context [run after os' ?b] =>
              replace a with b;
              [ destruct (run after os' b) as [[? ?] ?]; reflexivity
              | symmetry ]
          end
      end
  end.

(** The state of the loop of [processFiles] when the uploads of [fs]
    have been answered by [os]. *)
Lemma run_uploadEach (fs : list File) (after : Task) :
  forall (os os' : list Outcome) (s : State) (p : UploadProgress),
    uploadProgress s = Some p ->
    List.length os = List.length fs ->
    run (uploadEach fs after) (os ++ os') s =
    let s1 :=
      setUploadProgress
        (Some {| total := total p;
                 completed := completed p + successes os |}) s in
    let s2 := match last (failures fs os) with
              | Some m => setError (Some m) s1
              | None => s1
              end in
    let '(s', reqs, fin) := run after os' s2 in
    (s', map PostUpload fs ++ reqs, fin).
Proof.
  induction fs as [|f fs IH]; intros [|o os] os' s p Hp Hl;
    try discriminate Hl.
  - cbn [uploadEach app failures last map]. unfold successes.
    cbn [List.filter List.length]. rewrite Nat.add_0_r.
    replace (setUploadProgress _ s) with s
      by (destruct s; cbn in Hp; subst; now destruct p).
    now destruct (run after os' s) as [[? ?] ?].
  - cbn [uploadEach app run]. injection Hl as Hl.
    rewrite successes_cons. cbn [failures].
    unfold uploadFailure, succeeded.
    destruct (fetch_json o) as [data|m]; [destruct (success data)|];
      cbn [run].
    + rewrite (IH os os' _ {| total := total p;
                              completed := completed p + 1 |});
        [| unfold incrementCompleted; now rewrite Hp | exact Hl].
      cbv zeta. same_run after os'.
      unfold incrementCompleted. rewrite Hp. cbn [total completed].
      rewrite <- Nat.add_assoc.
      now destruct (last (failures fs os)).
    + rewrite (IH os os' _ p); [| exact Hp | exact Hl].
      cbv zeta. same_run after os'.
      rewrite last_cons. cbn [Nat.add].
      now destruct (last (failures fs os)).
    + rewrite (IH os os' _ p); [| exact Hp | exact Hl].
      cbv zeta. same_run after os'.
      rewrite last_cons. cbn [Nat.add].
      now destruct (last (failures fs os)).
Qed.

Lemma run_uploadEach_partial (fs : list File) (after : Task) :
  forall (os : list Outcome) (s : State) (p : UploadProgress),
    uploadProgress s = Some p ->
    List.length os < List.length fs ->
    run (uploadEach fs after) os s =
    (let s1 :=
       setUploadProgress
         (Some {| total := total p;
                  completed := completed p + successes os |}) s in
     match last (failures fs os) with
     | Some m => setError (Some m) s1
     | None => s1
     end,
     map PostUpload (take (S (List.length os)) fs), false).
Proof.
  induction fs as [|f fs IH]; intros [|o os] s p Hp Hl;
    cbn [List.length] in Hl; try lia.
  - cbn [uploadEach run failures last List.length take map].
    unfold successes. cbn [List.filter List.length]. rewrite Nat.add_0_r.
    replace (setUploadProgress _ s) with s
      by (destruct s; cbn in Hp; subst; now destruct p).
    now rewrite take_0.
  - cbn [uploadEach run]. apply Nat.succ_lt_mono in Hl.
    rewrite successes_cons. cbn [failures List.length].
    unfold uploadFailure, succeeded.
    destruct (fetch_json o) as [data|m]; [destruct (success data)|];
      cbn [run].
    + rewrite (IH os _ {| total := total p;
                          completed := completed p + 1 |});
        [| unfold incrementCompleted; now rewrite Hp | exact Hl].
      cbv zeta. rewrite (firstn_cons (S (List.length os))). cbn [map].
      f_equal. f_equal.
      unfold incrementCompleted. rewrite Hp. cbn [total completed].
      rewrite <- Nat.add_assoc.
      now destruct (last (failures fs os)).
    + rewrite (IH os _ p); [| exact Hp | exact Hl].
      cbv zeta. rewrite (firstn_cons (S (List.length os))). cbn [map].
      f_equal. f_equal.
      rewrite last_cons. cbn [Nat.add].
      now destruct (last (failures fs os)).
    + rewrite (IH os _ p); [| exact Hp | exact Hl].
      cbv zeta. rewrite (firstn_cons (S (List.length os))). cbn [map].
      f_equal. f_equal.
      rewrite last_cons. cbn [Nat.add].
      now destruct (last (failures fs os)).
Qed.

(** *** The upload pipeline *)


(** [processFiles] with at least one file kept is the loop over the kept
    files in the state that shows the progress [{N, 0}] and no error. *)
Lemma run_processFiles (files : list File) (os : list Outcome) (s : State) :
  0 < List.length (List.filter isPdf files) ->
  run (processFiles files) os s =
  run (uploadEach (List.filter isPdf files)
         (andThen fetchDocuments (Update (setUploadProgress None) Done)))
      os
      (setError None
         (setUploadProgress
            (Some {| total := List.length (List.filter isPdf files);
                     completed := 0 |}) s)).
Proof.
  intros HN. unfold processFiles.
  destruct (Nat.eqb_spec (List.length (List.filter isPdf files)) 0);
    [lia | reflexivity].
Qed.

Lemma progressed_started (fs : list File) (os : list Outcome) (s : State) :
  match last (failures fs os) with
  | Some m =>
      setError (Some m)
        (setUploadProgress
           (Some {| total := List.length fs;
                    completed := 0 + successes os |})
           (setError None
              (setUploadProgress
                 (Some {| total := List.length fs; completed := 0 |}) s)))
  | None =>
      setUploadProgress
        (Some {| total := List.length fs; completed := 0 + successes os |})
        (setError None
           (setUploadProgress
              (Some {| total := List.length fs; completed := 0 |}) s))
  end = progressed fs os s.
Proof. unfold progressed. now destruct (last (failures fs os)). Qed.

(** Fewer answers than files: the next upload is in flight. *)
Lemma run_processFiles_uploading
  (files : list File) (os : list Outcome) (s : State) :
  List.length os < List.length (List.filter isPdf files) ->
  run (processFiles files) os s =
  (progressed (List.filter isPdf files) os s,
   map PostUpload (take (S (List.length os)) (List.filter isPdf files)),
   false).
Proof.
  intros Hl. rewrite run_processFiles by lia.
  rewrite (run_uploadEach_partial _ _ os _
             {| total := List.length (List.filter isPdf files);
                completed := 0 |});
    [| reflexivity | exact Hl].
  cbv zeta. cbn [total completed]. now rewrite progressed_started.
Qed.

(** As many answers as files: the refresh is in flight. *)
Lemma run_processFiles_uploaded
  (files : list File) (os : list Outcome) (s : State) :
  0 < List.length (List.filter isPdf files) ->
  List.length os = List.length (List.filter isPdf files) ->
  run (processFiles files) os s =
  (progressed (List.filter isPdf files) os s,
   map PostUpload (List.filter isPdf files) ++ [GetDocuments], false).
Proof.
  intros HN Hl. rewrite run_processFiles by exact HN.
  rewrite <- (app_nil_r os) at 1.
  rewrite (run_uploadEach _ _ os [] _
             {| total := List.length (List.filter isPdf files);
                completed := 0 |});
    [| reflexivity | exact Hl].
  cbv zeta. cbn [total completed]. now rewrite progressed_started.
Qed.

(** The refresh answered: the batch is over. *)
Lemma run_processFiles_refreshed
  (files : list File) (os : list Outcome) (o : Outcome)
  (rest : list Outcome) (s : State) :
  0 < List.length (List.filter isPdf files) ->
  List.length os = List.length (List.filter isPdf files) ->
  run (processFiles files) (os ++ o :: rest) s =
  (setUploadProgress None
     (refreshed o (progressed (List.filter isPdf files) os s)),
   map PostUpload (List.filter isPdf files) ++ [GetDocuments], true).
Proof.
  intros HN Hl. rewrite run_processFiles by exact HN.
  rewrite (run_uploadEach _ _ os (o :: rest) _
             {| total := List.length (List.filter isPdf files);
                completed := 0 |});
    [| reflexivity | exact Hl].
  cbv zeta. cbn [total completed]. rewrite progressed_started.
  now rewrite run_andThen_done, run_fetchDocuments.
Qed.



(** *** Refreshing and deleting documents *)

Lemma refreshed_failed (o : Outcome) (s : State) :
  succeeded o = false -> refreshed o s = s.
Proof.
  rewrite refreshed_cases. unfold succeeded.
  destruct (fetch_json o) as [data|m]; [|reflexivity].
  now intros ->.
Qed.

Lemma documents_setUploadProgress_refreshed
  (o : Outcome) (v : option UploadProgress) (e : option string)
  (s : State) :
  succeeded o = false ->
  documents (setUploadProgress None
               (refreshed o (setError e (setUploadProgress v s)))) =
  documents s.
Proof. intros H. now rewrite (refreshed_failed _ _ H). Qed.

(** C10: a refresh whose request is rejected, whose body cannot be read
    or whose data says [success: false] leaves the state, hence the
    document list, as it was; a refresh whose data says [success: true]
    replaces the list by the one received (the empty one when the field is
    missing). An upload batch or a delete whose closing refresh fails thus
    ends with the list it started with. *)
Theorem fetchDocuments_failure (o : Outcome) (s : State) :
  (succeeded o = false ->
   run fetchDocuments [o] s = (s, [GetDocuments], true)) /\
  (forall data, fetch_json o = Returned data -> success data = true ->
   run fetchDocuments [o] s =
   (setDocuments (default [] (Api.documents data)) s, [GetDocuments],
    true)) /\
  (documents (fst (fst (run fetchDocuments [o] s))) <> documents s ->
   succeeded o = true) /\
  (succeeded o = false ->
   forall (files : list File) (os : list Outcome),
     0 < List.length (List.filter isPdf files) ->
     List.length os = List.length (List.filter isPdf files) ->
     documents (fst (fst (run (processFiles files) (os ++ [o]) s))) =
     documents s) /\
  (succeeded o = false ->
   forall (od : Outcome) (pdfId pdfName : string),
     deleted od = true ->
     documents
       (fst (fst (run (handleDeleteDocument true pdfId pdfName) [od; o] s)))
     = documents s).
Proof.
  repeat split.
  - intros H. rewrite run_fetchDocuments. now rewrite refreshed_failed.
  - intros data E H. rewrite run_fetchDocuments, refreshed_cases, E, H.
    reflexivity.
  - intros H. destruct (succeeded o) eqn:E; [reflexivity|].
    rewrite run_fetchDocuments, refreshed_failed in H by exact E.
    now destruct H.
  - intros H files os HN Hl.
    rewrite (run_processFiles_refreshed files os o [] s HN Hl). cbn [fst].
    unfold progressed. now apply documents_setUploadProgress_refreshed.
  - intros H od pdfId pdfName D. unfold handleDeleteDocument, deleted in *.
    cbn [negb run].
    destruct (fetch_json_checked od) as [data|m]; [|discriminate].
    rewrite D. rewrite run_andThen_done, run_fetchDocuments.
    cbn. now rewrite (refreshed_failed _ _ H).
Qed.

(** A rejected refresh, alone, after a batch and after a delete. *)
Lemma fetchDocuments_failure_witness :
  let s := setDocuments [Sample.doc "1" "a.pdf"] initial in
  let o := Rejected "Failed to fetch" in
  run fetchDocuments [o] s = (s, [GetDocuments], true) /\
  run fetchDocuments [Sample.listing []] s =
    (setDocuments [] s, [GetDocuments], true) /\
  documents
    (fst (fst (run (processFiles [Sample.pdf "b.pdf"]) ([Sample.ok] ++ [o])
                 s))) = [Sample.doc "1" "a.pdf"] /\
  documents
    (fst (fst (run (handleDeleteDocument true "1" "a.pdf") [Sample.ok; o]
                 s))) = [Sample.doc "1" "a.pdf"].
Proof.
  intros s o.
  destruct (fetchDocuments_failure o s) as (A & _ & _ & C & D).
  destruct (fetchDocuments_failure (Sample.listing []) s) as (_ & B & _).
  split; [|split; [|split]].
  - apply A. reflexivity.
  - apply (B _ eq_refl eq_refl).
  - apply (C eq_refl [Sample.pdf "b.pdf"] [Sample.ok]);
      [vm_compute; lia | reflexivity].
  - apply (D eq_refl Sample.ok "1" "a.pdf"). reflexivity.
Defined.



(** *** The chat turn *)

(** The guard of [handleSendMessage] lets through the questions that are
    not blank, when nothing is loading. *)
Lemma handleSendMessage_guard (s : State) :
  negb (Js.truthy (Js.trim (inputMessage s))) || isLoading s = false <->
  Js.trim (inputMessage s) <> "" /\ isLoading s = false.
Proof.
  rewrite orb_false_iff, negb_false_iff.
  destruct (Js.trim (inputMessage s)); simpl; intuition congruence.
Qed.

(** C2: a send that is answered by a failure (the request is rejected,
    the body cannot be read, or the data says [success: false]) ends with
    the user message in the history and no assistant message, with the
    error set to the reason of the failure and with [isLoading] false.
    Whatever the state has become when the failure comes, the code that
    waited for it only sets the error and [isLoading]: it appends no
    message and removes none. *)
Theorem handleSendMessage_failure
  (now : string) (s : State) (o : Outcome) (rest : list Outcome) :
  Js.trim (inputMessage s) <> "" ->
  isLoading s = false ->
  succeeded o = false ->
  let userMessage :=
    {| role := user; content := inputMessage s; timestamp := now;
       metadata := None |} in
  let reason :=
    match fetch_json o with
    | Returned data => Js.or_else (Api.error data) "Failed to get response"
    | Thrown m => "Error: " +:+ m
    end in
  (exists s' : State,
     run (handleSendMessage now s) (o :: rest) s =
       (s', [PostChat (inputMessage s) (knowledgeMode s)], true) /\
     messages s' = messages s ++ [userMessage] /\
     error s' = Some reason /\
     isLoading s' = false) /\
  (exists k : Outcome -> Task,
     snd (advance (handleSendMessage now s) s) =
       Waiting (PostChat (inputMessage s) (knowledgeMode s)) k /\
     forall later : State,
       advance (k o) later =
         (setIsLoading false (setError (Some reason) later), Finished)).
Proof.
  intros T L F userMessage reason. unfold handleSendMessage.
  destruct (handleSendMessage_guard s) as [_ G]. rewrite (G (conj T L)).
  subst reason. unfold succeeded in F. split.
  - cbn [run]. rewrite run_andThen_done.
    destruct (fetch_json o) as [data|m].
    + rewrite F. cbn. eexists. split; [reflexivity|]. now repeat split.
    + cbn. eexists. split; [reflexivity|]. now repeat split.
  - cbn [advance snd]. eexists. split; [reflexivity|]. intros later.
    cbv beta. destruct (fetch_json o) as [data|m]; [rewrite F|];
      reflexivity.
Qed.

(** The scenario of the specification: the backend answers
    [{success: false, error: "No documents"}]. *)
Lemma handleSendMessage_failure_witness :
  let s := setInputMessage "What is in document X?" initial in
  exists s' : State,
    run (handleSendMessage "2024-05-01T10:00:00.000Z" s)
        [Sample.failed "No documents"] s =
      (s', [PostChat "What is in document X?" augmented], true) /\
    messages s' =
      [{| role := user; content := "What is in document X?";
          timestamp := "2024-05-01T10:00:00.000Z"; metadata := None |}] /\
    error s' = Some "No documents" /\
    isLoading s' = false.
Proof.
  intros s.
  apply (handleSendMessage_failure "2024-05-01T10:00:00.000Z" s
           (Sample.failed "No documents") []);
    [vm_compute; discriminate | reflexivity | reflexivity].
Defined.

(** C8, as the claim states it, fails: a question that is not empty but
    blank is not sent. *)
Lemma handleSendMessage_blank :
  let s := setInputMessage " " initial in
  inputMessage s <> "" /\
  isLoading s = false /\
  run (handleSendMessage "2024-05-01T10:00:00.000Z" s) [] s = (s, [], true).
Proof. repeat split. discriminate. Qed.

(** C8 (amended): a send whose question is not blank (it has a unit that
    is not white space), with nothing loading, at once appends the user
    message stamped by the client, clears the input, sets [isLoading], clears
    the error and sends the question with the current mode; answered by a
    success it appends one assistant message made of the answer, the
    timestamp and the metadata of the response, [metadata.mode] being its
    [knowledge_mode], and [isLoading] is false again. Whatever the state
    has become when the success comes, the code that waited for it appends
    that one message and resets [isLoading], nothing else. *)
Theorem handleSendMessage_success (now : string) (s : State) :
  Js.trim (inputMessage s) <> "" ->
  isLoading s = false ->
  let userMessage :=
    {| role := user; content := inputMessage s; timestamp := now;
       metadata := None |} in
  let reply (data : Data) :=
    {| role := assistant;
       content := answer data;
       timestamp := Api.timestamp data;
       metadata :=
         Some {| mode := Api.knowledge_mode data;
                 sources := sources_used data;
                 searchResults := search_results_count data;
                 tokenUsage := token_usage data |} |} in
  (exists s1 : State,
     run (handleSendMessage now s) [] s =
       (s1, [PostChat (inputMessage s) (knowledgeMode s)], false) /\
     messages s1 = messages s ++ [userMessage] /\
     inputMessage s1 = "" /\
     isLoading s1 = true /\
     error s1 = None) /\
  (forall (o : Outcome) (data : Data) (rest : list Outcome),
     fetch_json o = Returned data ->
     success data = true ->
     exists s2 : State,
       run (handleSendMessage now s) (o :: rest) s =
         (s2, [PostChat (inputMessage s) (knowledgeMode s)], true) /\
       messages s2 = messages s ++ [userMessage; reply data] /\
       inputMessage s2 = "" /\
       isLoading s2 = false /\
       error s2 = None) /\
  (exists k : Outcome -> Task,
     snd (advance (handleSendMessage now s) s) =
       Waiting (PostChat (inputMessage s) (knowledgeMode s)) k /\
     forall (o : Outcome) (data : Data) (later : State),
       fetch_json o = Returned data ->
       success data = true ->
       advance (k o) later =
         (setIsLoading false
            (setMessages (fun prev => prev ++ [reply data]) later),
          Finished)).
Proof.
  intros T L userMessage reply. unfold handleSendMessage.
  destruct (handleSendMessage_guard s) as [_ G]. rewrite (G (conj T L)).
  split; [|split].
  - cbn [run]. eexists. split; [reflexivity|]. now repeat split.
  - intros o data rest E S. cbn [run]. rewrite run_andThen_done, E, S.
    cbn. eexists. split; [reflexivity|].
    repeat split. cbn [messages setMessages setIsLoading setError
                        setInputMessage].
    now rewrite <- app_assoc.
  - cbn [advance snd]. eexists. split; [reflexivity|].
    intros o data later E S. cbv beta. now rewrite E, S.
Qed.

(** The scenario of the specification: a question sent in strict mode and
    answered with [knowledge_mode: "strict"]. *)
Lemma handleSendMessage_success_witness :
  let s :=
    setKnowledgeMode strict
      (setInputMessage "What is in document X?" initial) in
  exists s2 : State,
    run (handleSendMessage "2024-05-01T10:00:00.000Z" s)
        [Sample.reply "A thesis." "2024-05-01T10:00:02.000Z" "strict"] s =
      (s2, [PostChat "What is in document X?" strict], true) /\
    messages s2 =
      [{| role := user; content := "What is in document X?";
          timestamp := "2024-05-01T10:00:00.000Z"; metadata := None |};
       {| role := assistant; content := "A thesis.";
          timestamp := "2024-05-01T10:00:02.000Z";
          metadata := Some {| mode := "strict"; sources := 2;
                              searchResults := 5;
                              tokenUsage := Some 120 |} |}] /\
    inputMessage s2 = "" /\
    isLoading s2 = false /\
    error s2 = None.
Proof.
  intros s.
  destruct (handleSendMessage_success "2024-05-01T10:00:00.000Z" s)
    as (_ & R & _); [vm_compute; discriminate | reflexivity |].
  apply (R (Sample.reply "A thesis." "2024-05-01T10:00:02.000Z" "strict")
           _ [] eq_refl eq_refl).
Defined.

End Tasks.

(** ** Sessions *)

Section Sessions.

Import Api App Session.






Lemma chat_in_flight_app (sys : Sys) (e : Request * (Outcome -> Task))
  (s : State) :
  chat_in_flight {| state := s; pending := pending sys ++ [e] |} =
  chat_in_flight sys ++ (if is_chat (fst e) then [fst e] else []).
Proof.
  unfold chat_in_flight. cbn [pending].
  rewrite map_app, List.filter_app. cbn. now destruct (is_chat (fst e)).
Qed.




(** What remains of the chat requests when one pending request is
    answered. *)
Lemma chat_in_flight_delete (sys : Sys) (i : nat) (req : Request)
  (k : Outcome -> Task) (s : State) :
  pending sys !! i = Some (req, k) ->
  List.length
    (chat_in_flight {| state := s; pending := delete i (pending sys) |}) +
  (if is_chat req then 1 else 0) =
  List.length (chat_in_flight sys).
Proof.
  intros Hi. unfold chat_in_flight. cbn [pending].
  rewrite <- (take_drop_middle (pending sys) i (req, k) Hi) at 2.
  rewrite delete_take_drop.
  rewrite !map_app, !List.filter_app, !List.length_app. cbn.
  destruct (is_chat req); cbn; lia.
Qed.







End Sessions.

(** ** The typewriter *)

Section Typewriters.

Import Typewriter.

Lemma same_deps_eq (a b : Deps) : same_deps a b = true <-> a = b.
Proof.
  unfold same_deps. rewrite !andb_true_iff, String.eqb_eq, Nat.eqb_eq,
    Z.eqb_eq.
  destruct a, b; cbn. split; [intros [[-> ->] ->] | intros [= -> -> ->]];
    auto.
Qed.

Lemma same_deps_refl (d : Deps) : same_deps d d = true.
Proof. now apply same_deps_eq. Qed.


Lemma exec_app (i : Instance) (evs evs' : list Event) :
  exec i (evs ++ evs') = exec (exec i evs) evs'.
Proof. unfold exec. now rewrite fold_left_app. Qed.

(** A tick of a timer that is not active does nothing. *)
Lemma step_tick_inactive (i : Instance) (id : nat) :
  active (timers i) !! id = None -> step i (Tick id) = i.
Proof. intros H. cbn [step]. now rewrite H. Qed.



(** The result of an effect that runs. *)
Lemma step_render_changed (i : Instance) (d : Deps) :
  changed d (hook i) = true ->
  step i (Render d) =
  {| hook := {| displayedText := ""; isTyping := true;
                effect := Some (d, next_id (timers i)) |};
     timers :=
       {| active := <[next_id (timers i) := callback 0 d 0]>
                      (active (cleanup (hook i) (timers i)));
          next_id := S (next_id (timers i)) |} |}.
Proof.
  intros H. cbn [step]. unfold useEffect. rewrite H.
  unfold run_effect, setInterval.
  replace (next_id (cleanup (hook i) (timers i))) with (next_id (timers i));
    [reflexivity|].
  unfold cleanup. now destruct (effect (hook i)) as [[? ?]|].
Qed.








End Typewriters.

(** ** The banner *)

Section Banners.

Import Typewriter Banner.

Lemma changed_false (d : Deps) (h : Hook) :
  changed d h = false <-> exists id, effect h = Some (d, id).
Proof.
  unfold changed. destruct (effect h) as [[d' id]|]; split.
  - intros H. apply negb_false_iff, same_deps_eq in H. subst. eauto.
  - intros [id' [= -> ->]]. now rewrite same_deps_refl.
  - discriminate.
  - intros [? [=]].
Qed.

Lemma render_pass_app (b : Banner) : app (render_pass b) = app b.
Proof.
  unfold render_pass.
  destruct (changed (titleDeps b) (title b)),
    (changed (descriptionDeps b) (description b)); reflexivity.
Qed.

Lemma render_pass_title_effect (b : Banner) :
  exists id, effect (title (render_pass b)) = Some (titleDeps b, id).
Proof.
  unfold render_pass.
  destruct (changed (titleDeps b) (title b)) eqn:C.
  - destruct (changed (descriptionDeps b) (description b)); cbn; eauto.
  - apply changed_false in C as [id C].
    destruct (changed (descriptionDeps b) (description b)); cbn; eauto.
Qed.

Lemma render_pass_description_effect (b : Banner) :
  exists id,
    effect (description (render_pass b)) = Some (descriptionDeps b, id).
Proof.
  unfold render_pass.
  destruct (changed (descriptionDeps b) (description b)) eqn:C.
  - destruct (changed (titleDeps b) (title b)); cbn; eauto.
  - apply changed_false in C as [id C].
    destruct (changed (titleDeps b) (title b)); cbn; eauto.
Qed.

Lemma render_pass_title_same (b : Banner) :
  changed (titleDeps b) (title b) = false ->
  title (render_pass b) = title b.
Proof.
  intros C. unfold render_pass. rewrite C.
  now destruct (changed (descriptionDeps b) (description b)).
Qed.

Lemma titleDeps_app (b b' : Banner) :
  app b' = app b -> titleDeps b' = titleDeps b.
Proof. unfold titleDeps. now intros ->. Qed.

Lemma descriptionDeps_app (b b' : Banner) :
  app b' = app b -> title b' = title b ->
  descriptionDeps b' = descriptionDeps b.
Proof. unfold descriptionDeps. now intros -> ->. Qed.

Lemma render_pass_title_quiet (b : Banner) :
  changed (titleDeps (render_pass b)) (title (render_pass b)) = false.
Proof.
  apply changed_false. rewrite (titleDeps_app b) by apply render_pass_app.
  apply render_pass_title_effect.
Qed.

(** Two passes leave no effect due. *)
Lemma settle_quiescent (b : Banner) : quiescent (settle b).
Proof.
  unfold settle. set (b1 := render_pass b).
  assert (C1 : changed (titleDeps b1) (title b1) = false)
    by apply render_pass_title_quiet.
  split; [apply render_pass_title_quiet|].
  apply changed_false.
  rewrite (descriptionDeps_app b1);
    [apply render_pass_description_effect | apply render_pass_app
    | now apply render_pass_title_same].
Qed.

Lemma render_pass_quiescent (b : Banner) :
  quiescent b -> render_pass b = b.
Proof. intros [C D]. unfold render_pass. rewrite C, D. now destruct b. Qed.

(** The name [settle] is deserved: a third render changes nothing. *)
Lemma render_pass_settle (b : Banner) : render_pass (settle b) = settle b.
Proof. apply render_pass_quiescent, settle_quiescent. Qed.

Lemma settle_app (b : Banner) : app (settle b) = app b.
Proof. unfold settle. now rewrite !render_pass_app. Qed.


Lemma settle_quiescent_same (b : Banner) : quiescent b -> settle b = b.
Proof.
  intros Q. unfold settle. now rewrite !(render_pass_quiescent b Q).
Qed.

(** A tick changes neither the recorded effects nor the component's
    cells. *)
Lemma tick_frame (id : nat) (b : Banner) :
  app (tick id b) = app b /\
  effect (title (tick id b)) = effect (title b) /\
  effect (description (tick id b)) = effect (description b).
Proof.
  unfold tick. destruct (active (timers b) !! id) as [cb|]; [|auto].
  unfold fire. destruct (owner cb =? 0), (index cb <? _); cbn; auto.
Qed.

(** The title changes only by a tick of a timer of its own. *)
Lemma tick_title (id : nat) (b : Banner) :
  isTyping (title b) = true ->
  isTyping (title (tick id b)) = false ->
  description (tick id b) = description b.
Proof.
  unfold tick. destruct (active (timers b) !! id) as [cb|]; [|congruence].
  unfold fire. destruct (owner cb =? 0), (index cb <? _); cbn; congruence.
Qed.

Lemma step_stable (b : Banner) (e : Event) : stable b -> stable (step b e).
Proof.
  intros [_ T]. destruct e as [id|m|m]; cbn [step];
    (split; [apply settle_quiescent|]); rewrite settle_app.
  - destruct (tick_frame id b) as (-> & _). exact T.
  - cbn. lia.
  - cbn. lia.
Qed.

Lemma exec_stable (evs : list Event) : stable (exec mount evs).
Proof.
  unfold exec.
  assert (H : stable mount).
  { split; [apply settle_quiescent|]. unfold mount. rewrite settle_app.
    cbn. lia. }
  revert H. generalize mount.
  induction evs as [|e evs IH]; intros b H; [assumption|].
  apply IH, step_stable, H.
Qed.





End Banners.

(** * Further properties of the code *)

(** ** The renderer and the file filter *)

Section Fragments.

Import Render.

Lemma take_word_all (w : string) :
  forallb is_word_char (list_ascii_of_string w) = true -> take_word w = w.
Proof.
  induction w as [|c w IH]; [reflexivity|]. cbn.
  intros H. apply andb_true_iff in H as [-> H]. now rewrite IH.
Qed.

Lemma take_word_app (w rest : string) :
  forallb is_word_char (list_ascii_of_string w) = true ->
  take_word rest = "" ->
  take_word (w +:+ rest) = w.
Proof.
  intros H R. induction w as [|c w IH]; [exact R|].
  rewrite append_cons. cbn in *.
  apply andb_true_iff in H as [-> H]. now rewrite IH.
Qed.

(** X1: the language given to the highlighter is a non-empty run of word
    characters that follows [language-] in the class name; a class name
    that starts with [language-], a non-empty run [w] of word characters
    and then nothing or something that does not start with a word
    character gives [w]; without a class name there is no language. *)
Theorem language_tag_of_className :
  (forall (className : option string) (w : string),
     language_tag className = Some w ->
     w <> "" /\
     forallb is_word_char (list_ascii_of_string w) = true /\
     exists c, className = Some c /\
               Js.includes ("language-" +:+ w) c = true) /\
  (forall w rest : string,
     w <> "" ->
     forallb is_word_char (list_ascii_of_string w) = true ->
     take_word rest = "" ->
     language_tag (Some ("language-" +:+ w +:+ rest)) = Some w) /\
  language_tag None = None.
Proof.
  split; [|split; [|reflexivity]].
  - intros className w H. unfold language_tag in H.
    destruct (language_exec_sound _ _ H) as (A & B & C).
    repeat split; try assumption.
    destruct className as [c|]; [|discriminate C].
    exists c. split; [reflexivity|].
    unfold Js.or_else in C. destruct (Js.truthy c) eqn:T; [exact C|].
    discriminate C.
  - intros w rest Hw Ha Hr. unfold language_tag, Js.or_else.
    destruct w as [|c w]; [congruence|]. clear Hw.
    change (Js.truthy ("language-" +:+ String c w +:+ rest)) with true.
    cbv iota.
    change ("language-" +:+ String c w +:+ rest)
      with (String "l" ("anguage-" +:+ String c w +:+ rest)).
    cbn [language_exec].
    change (String "l" ("anguage-" +:+ String c w +:+ rest))
      with ("language-" +:+ (String c w +:+ rest)).
    rewrite strip_prefix_app, (take_word_app _ _ Ha Hr). reflexivity.
Qed.

Lemma language_tag_of_className_witness :
  language_tag (Some "language-python hljs") = Some "python".
Proof.
  destruct language_tag_of_className as (_ & H & _).
  apply (H "python" " hljs"); [discriminate | reflexivity | reflexivity].
Defined.

Lemma includes_char_app (c : ascii) (a b : string) :
  Js.includes_char c (a +:+ b) =
  Js.includes_char c a || Js.includes_char c b.
Proof.
  induction a as [|d a IH]; [reflexivity|].
  rewrite append_cons. cbn. rewrite IH. now rewrite orb_assoc.
Qed.

Lemma length_append (a b : string) :
  Js.length (a +:+ b) = Js.length a + Js.length b.
Proof.
  unfold Js.length. induction a as [|d a IH]; [reflexivity|].
  rewrite append_cons. cbn. now rewrite IH.
Qed.

(** X2: a fragment without language tag, not marked inline, whose text is
    one line of fewer than 100 units followed by one line feed (a fence
    around one short line) is rendered inline; with a second line feed at
    the end it is a plain block. Only one final line feed is forgiven. *)
Theorem code_single_line_fence (line : string) :
  Js.includes_char Js.LF line = false ->
  Js.length line < 100 ->
  let LF := String Js.LF "" in
  code false None (line +:+ LF) = InlineCode (line +:+ LF) /\
  code false None (line +:+ LF +:+ LF) = PlainBlock (line +:+ LF +:+ LF).
Proof.
  intros H L LF. unfold code, isSingleLine. cbn [language_tag orb].
  change (language_tag None) with (@None string). cbv iota. split.
  - subst LF. rewrite codeContent_line_feed, H.
    apply Nat.ltb_lt in L. now rewrite L.
  - subst LF.
    replace (line +:+ String Js.LF "" +:+ String Js.LF "")
      with ((line +:+ String Js.LF "") +:+ String Js.LF "").
    + rewrite codeContent_line_feed, includes_char_app.
      cbn. now rewrite orb_true_r.
    + clear. induction line as [|c l IH]; [reflexivity|].
      rewrite !append_cons. now rewrite IH.
Qed.

Lemma code_single_line_fence_witness :
  code false None ("npm install" +:+ String Js.LF "") =
  InlineCode ("npm install" +:+ String Js.LF "").
Proof.
  apply (code_single_line_fence "npm install");
    [reflexivity | vm_compute; lia].
Defined.

End Fragments.

Section Filter.

Import Api App.

Lemma toLowerCase_app (a b : string) :
  Js.toLowerCase (a +:+ b) = Js.toLowerCase a +:+ Js.toLowerCase b.
Proof.
  induction a as [|c a IH]; [reflexivity|].
  rewrite append_cons. cbn [Js.toLowerCase]. now rewrite IH, append_cons.
Qed.

Lemma endsWith_app (p a : string) : Js.endsWith p (a +:+ p) = true.
Proof.
  induction a as [|c a IH].
  - rewrite append_nil_l.
    destruct p; cbn [Js.endsWith]; now rewrite String.eqb_refl.
  - rewrite append_cons. cbn [Js.endsWith]. rewrite IH.
    now rewrite orb_true_r.
Qed.

(** X3: the filter of [processFiles] accepts a file whose name ends in
    [.pdf] written in any mix of upper and lower case, whatever its type,
    and a file of type [application/pdf], whatever its name. *)
Theorem isPdf_any_case :
  (forall base ext ty : string,
     Js.toLowerCase ext = ".pdf" ->
     isPdf {| name := base +:+ ext; type := ty |} = true) /\
  (forall n : string,
     isPdf {| name := n; type := "application/pdf" |} = true).
Proof.
  split.
  - intros base ext ty H. unfold isPdf. cbn [name type].
    rewrite toLowerCase_app, H, endsWith_app. apply orb_true_r.
  - intros n. reflexivity.
Qed.

Lemma isPdf_any_case_witness :
  isPdf {| name := "Report.2024" +:+ ".PdF"; type := "" |} = true.
Proof.
  destruct isPdf_any_case as (H & _). apply H. reflexivity.
Defined.

End Filter.

(** ** Upload batches *)

Section Batches.

Import Api App Session.

(** X4: whatever the files and whatever the answers, the requests that
    [processFiles] has sent are a prefix of: the uploads of the files that
    pass the filter, in their order, then one request for the document
    list. No other file is sent, none is sent twice, and the list is
    fetched at most once. *)
Theorem processFiles_requests
  (files : list File) (os : list Outcome) (s : State) :
  snd (fst (run (processFiles files) os s)) `prefix_of`
  map PostUpload (List.filter isPdf files) ++ [GetDocuments].
Proof.
  destruct (Nat.eq_dec (List.length (List.filter isPdf files)) 0) as [Z|Z].
  - unfold processFiles. rewrite Z. cbn. apply prefix_nil.
  - destruct (Nat.lt_ge_cases (List.length os)
                (List.length (List.filter isPdf files))) as [L|L].
    + rewrite run_processFiles_uploading by exact L. cbn [fst snd].
      exists (map PostUpload
                (drop (S (List.length os)) (List.filter isPdf files)) ++
              [GetDocuments]).
      rewrite app_assoc, <- map_app, take_drop. reflexivity.
    + rewrite <- (take_drop (List.length (List.filter isPdf files)) os).
      assert (T : List.length
                    (take (List.length (List.filter isPdf files)) os) =
                  List.length (List.filter isPdf files))
        by (rewrite length_take; lia).
      destruct (drop (List.length (List.filter isPdf files)) os)
        as [|o rest].
      * rewrite app_nil_r, run_processFiles_uploaded by (lia || exact T).
        reflexivity.
      * rewrite run_processFiles_refreshed by (lia || exact T).
        reflexivity.
Qed.

(** X5: dropping files is not held back while a batch is uploading. With
    two overlapping batches of one file each, when both uploads succeed
    the progress shows 2 of 1; and when the first batch ends before the
    upload of the second succeeds, the updater of that success reads
    [completed] of [null] and throws. *)
Theorem overlapping_batches
  (f1 f2 : File) (o1 o2 o3 : Outcome) :
  isPdf f1 = true ->
  isPdf f2 = true ->
  succeeded o1 = true ->
  succeeded o3 = true ->
  uploadProgress
    (state (exec boot [Drop [f1]; Drop [f2]; Settle 1 o1; Settle 1 o3])) =
    Some {| total := 1; completed := 2 |} /\
  renderError
    (state (exec boot [Drop [f1]; Drop [f2]; Settle 1 o1; Settle 2 o2;
                       Settle 1 o3])) = true.
Proof.
  intros P1 P2 S1 S3. unfold succeeded in S1, S3.
  destruct (fetch_json o1) as [d1|] eqn:E1; [|discriminate].
  destruct (fetch_json o3) as [d3|] eqn:E3; [|discriminate].
  unfold exec, boot. cbn [fold_left step].
  unfold handleDrop, processFiles. cbn [List.length Nat.ltb Nat.leb].
  cbn [List.filter]. rewrite P1, P2. cbn [List.length Nat.eqb].
  split.
  - do 4 (unfold launch; cbn; rewrite ?E1, ?E3, ?S1, ?S3). reflexivity.
  - destruct (fetch_json o2) as [d2|] eqn:E2; [destruct (success d2) eqn:S2|];
      do 5 (unfold launch; cbn; rewrite ?E1, ?E2, ?E3, ?S1, ?S2, ?S3);
      reflexivity.
Qed.

Lemma overlapping_batches_witness :
  renderError
    (state (exec boot [Drop [Sample.pdf "a.pdf"]; Drop [Sample.pdf "b.pdf"];
                       Settle 1 Sample.ok; Settle 2 (Sample.listing []);
                       Settle 1 Sample.ok])) = true.
Proof.
  apply (overlapping_batches (Sample.pdf "a.pdf") (Sample.pdf "b.pdf"));
    reflexivity.
Defined.

End Batches.

(** ** The drop overlay *)

Section Overlay.

Import App Drag DragStream.

Lemma handleDragEnter_items (n : nat) (s : State) :
  0 < n ->
  dragCounter (handleDragEnter (Some n) s) = (dragCounter s + 1)%Z /\
  isDragOver (handleDragEnter (Some n) s) = true.
Proof.
  intros H. unfold handleDragEnter. apply Nat.ltb_lt in H. now rewrite H.
Qed.

Lemma handleDragLeave_cases (s : State) :
  dragCounter (handleDragLeave s) = (dragCounter s - 1)%Z /\
  isDragOver (handleDragLeave s) =
    if (dragCounter s - 1 =? 0)%Z then false else isDragOver s.
Proof.
  unfold handleDragLeave. cbn [dragCounter setDragCounter].
  now destruct (dragCounter s - 1 =? 0)%Z.
Qed.

(** X6: as long as every enter event carries an item and the counter
    never falls below 0, the overlay is shown exactly when the counter is
    above 0: it stays on while the pointer moves between nested elements
    and goes off with the leave event that balances the first enter. *)
Theorem overlay_follows_depth (s : State) (evs : list Event) :
  isDragOver s = (0 <? dragCounter s)%Z ->
  with_items evs = true ->
  never_negative s evs = true ->
  isDragOver (exec s evs) = (0 <? dragCounter (exec s evs))%Z.
Proof.
  revert s. induction evs as [|e evs IH]; intros s I W N; [exact I|].
  cbn [exec fold_left]. cbn [with_items forallb] in W.
  apply andb_true_iff in W as [We W].
  cbn [never_negative] in N. apply andb_true_iff in N as [N0 N].
  apply Z.leb_le in N0.
  apply (IH (step s e)); [|exact W|exact N].
  assert (N1 : (0 <= dragCounter (step s e))%Z).
  { destruct evs; cbn [never_negative] in N;
      apply andb_true_iff in N as [N _]; now apply Z.leb_le in N. }
  destruct e as [[n|]| | |files]; cbn [step] in *; try discriminate We.
  - apply Nat.ltb_lt in We.
    destruct (handleDragEnter_items n s We) as [D O]. rewrite D, O.
    symmetry. apply Z.ltb_lt. lia.
  - destruct (handleDragLeave_cases s) as [D O]. rewrite D in *. rewrite O.
    destruct (Z.eqb_spec (dragCounter s - 1) 0) as [E|E].
    + rewrite E. reflexivity.
    + rewrite I. destruct (Z.ltb_spec 0 (dragCounter s)),
        (Z.ltb_spec 0 (dragCounter s - 1)); try reflexivity; lia.
  - exact I.
  - destruct (handleDrop_sync files s) as [D O]. now rewrite D, O.
Qed.

Lemma overlay_follows_depth_witness :
  let evs := [Enter (Some 1); Enter (Some 1); Leave; Over] in
  isDragOver (exec initial evs) = true /\
  isDragOver (exec initial (evs ++ [Leave])) = false.
Proof.
  intros evs. split.
  - rewrite (overlay_follows_depth initial evs); reflexivity.
  - rewrite (overlay_follows_depth initial (evs ++ [Leave])); reflexivity.
Defined.

End Overlay.

(** ** The life of a typewriter *)

Section Lives.

Import Typewriter Lifecycle.

Lemma mount_consistent (d : Deps) : consistent (mount d).
Proof.
  exists d, 1. split; [reflexivity|]. left. split; [reflexivity|].
  exists 0. split; [lia|]. split; [now destruct (text d)|].
  cbn. apply insert_empty.
Qed.

Lemma consistent_cleanup (i : Instance) :
  consistent i -> active (cleanup (hook i) (timers i)) = ∅.
Proof.
  intros (d & id & E & [(_ & k & _ & _ & A)|(_ & _ & A)]);
    unfold cleanup; rewrite E; cbn; rewrite A.
  - apply delete_singleton_eq.
  - apply delete_empty.
Qed.

Lemma step_consistent (i : Instance) (e : Event) :
  consistent i -> consistent (step i e).
Proof.
  intros C. destruct e as [d'|id'].
  - destruct (changed d' (hook i)) eqn:Ch.
    + rewrite (step_render_changed _ _ Ch).
      exists d', (next_id (timers i)). split; [reflexivity|]. left.
      split; [reflexivity|]. exists 0.
      split; [lia|]. split; [now destruct (text d')|].
      cbn. rewrite (consistent_cleanup _ C). apply insert_empty.
    + cbn [step]. unfold useEffect. rewrite Ch. now destruct i.
  - destruct C as (d & id & E & [(T & k & Hk & D & A)|(T & D & A)]).
    + cbn [step]. rewrite A.
      destruct (decide (id = id')) as [<-|Ne].
      * rewrite lookup_singleton_eq. unfold fire.
        cbn [callback index captured owner delay].
        exists d, id. destruct (Nat.ltb_spec k (Js.length (text d))).
        -- split; [exact E|]. left. split; [exact T|].
           exists (k + 1). split; [lia|]. split; [reflexivity|].
           cbn. rewrite A. apply insert_singleton_eq.
        -- split; [exact E|]. right. split; [reflexivity|].
           assert (k = Js.length (text d)) as -> by lia.
           cbn. rewrite D, slice0_all. split; [reflexivity|].
           rewrite A. apply delete_singleton_eq.
      * rewrite lookup_singleton_ne by exact Ne.
        exists d, id. split; [exact E|]. left. split; [exact T|].
        exists k. auto.
    + cbn [step]. rewrite A, lookup_empty.
      exists d, id. split; [exact E|]. right. auto.
Qed.

Lemma exec_consistent (i : Instance) (evs : list Event) :
  consistent i -> consistent (exec i evs).
Proof.
  revert i. induction evs as [|e evs IH]; intros i C; [exact C|].
  apply IH, step_consistent, C.
Qed.

(** X7: at every moment of a mounted hook, whatever the renders and the
    ticks so far, the text shown is a prefix of the text of the last
    effect; while [isTyping] is true the interval of that effect is the
    only active one and its index is the length shown; once [isTyping] is
    false the whole text is shown and no interval is active. No interval
    is ever left behind. *)
Theorem useTypewriter_invariant (d0 : Deps) (evs : list Event) :
  let i := exec (mount d0) evs in
  let shown := displayedText (hook i) in
  exists (d : Deps) (id : nat),
    effect (hook i) = Some (d, id) /\
    shown = Js.slice0 (Js.length shown) (text d) /\
    Js.length shown <= Js.length (text d) /\
    active (timers i) =
      (if isTyping (hook i)
       then {[ id := callback 0 d (Js.length shown) ]}
       else ∅) /\
    (isTyping (hook i) = true \/ shown = text d).
Proof.
  intros i shown. subst shown.
  destruct (exec_consistent _ evs (mount_consistent d0))
    as (d & id & E & [(T & k & Hk & D & A)|(T & D & A)]); fold i in E, T, D, A;
    exists d, id; (split; [exact E|]); rewrite T.
  - rewrite D, slice0_length by exact Hk. auto.
  - rewrite D, slice0_all. repeat split; auto.
Qed.

(** X8: unmounting a mounted hook, at any moment, leaves no interval
    active, so that no tick can follow. *)
Theorem unmount_clears (d0 : Deps) (evs : list Event) (id : nat) :
  let i := unmount (exec (mount d0) evs) in
  active (timers i) = ∅ /\ step i (Tick id) = i.
Proof.
  intros i.
  assert (A : active (timers i) = ∅).
  { subst i. unfold unmount. cbn [timers].
    apply consistent_cleanup, exec_consistent, mount_consistent. }
  split; [exact A|]. apply step_tick_inactive. rewrite A. apply lookup_empty.
Qed.

End Lives.

(** ** The banner after a change of mode, and its timers *)

Section Reanimation.

Import Typewriter Banner BannerTimers.

Lemma next_id_cleanup (h : Hook) (T : Timers) :
  next_id (cleanup h T) = next_id T.
Proof. unfold cleanup. now destruct (effect h) as [[? ?]|]. Qed.

Lemma render_pass_title_changed (b : Banner) :
  changed (titleDeps b) (title b) = true ->
  title (render_pass b) =
  {| displayedText := ""; isTyping := true;
     effect := Some (titleDeps b, next_id (timers b)) |}.
Proof.
  intros C. unfold render_pass. rewrite C.
  destruct (changed (descriptionDeps b) (description b)); cbn;
    now rewrite !next_id_cleanup.
Qed.

Lemma settle_title_changed (b : Banner) :
  changed (titleDeps b) (title b) = true ->
  title (settle b) =
  {| displayedText := ""; isTyping := true;
     effect := Some (titleDeps b, next_id (timers b)) |}.
Proof.
  intros C. unfold settle.
  rewrite render_pass_title_same by apply render_pass_title_quiet.
  now apply render_pass_title_changed.
Qed.

(** X9: choosing a mode, from the menu or from the sidebar, even the mode
    that is already active, increments the trigger and so restarts the
    banner: the title is typed again from the empty string, nothing of
    the description is shown, and the description waits on the token [-1]
    with the text that names the chosen mode. *)
Theorem mode_change_restarts_banner
  (evs : list Event) (m : Api.KnowledgeMode) (sidebar : bool) :
  let b := exec mount evs in
  let b' := step b (if sidebar then SidebarModeChange m else ModeSelect m) in
  App.knowledgeMode (app b') = m /\
  App.typingTrigger (app b') = (App.typingTrigger (app b) + 1)%Z /\
  titleShown (view b') = "" /\
  titleCursor (view b') = true /\
  descriptionShown (view b') = "" /\
  exists id,
    effect (description b') =
      Some ({| text := descriptionText m; speed := 20;
               trigger := (-1)%Z |}, id).
Proof.
  intros b b'. destruct (exec_stable evs) as [[Qt _] _]. fold b in Qt.
  set (f := if sidebar then App.handleSidebarModeChange m
            else App.handleModeSelect m).
  assert (E : b' = settle (with_app f b)) by (subst b' f; now destruct sidebar).
  assert (M : App.knowledgeMode (f (app b)) = m)
    by (subst f; now destruct sidebar).
  assert (Tr : App.typingTrigger (f (app b)) =
               (App.typingTrigger (app b) + 1)%Z)
    by (subst f; now destruct sidebar).
  assert (C : changed (titleDeps (with_app f b)) (title (with_app f b))
              = true).
  { apply changed_false in Qt as [i Qt]. unfold changed. cbn [with_app title].
    rewrite Qt. apply negb_true_iff.
    destruct (same_deps _ _) eqn:S; [|reflexivity].
    apply same_deps_eq in S. apply (f_equal trigger) in S.
    unfold titleDeps in S. cbn [trigger with_app app] in S.
    rewrite Tr in S. lia. }
  pose proof (settle_title_changed _ C) as T.
  destruct (settle_quiescent (with_app f b)) as [_ Qd].
  apply changed_false in Qd as [id Qd].
  rewrite E. unfold view. rewrite T, settle_app. cbn [with_app app].
  repeat split; try assumption; try reflexivity.
  exists id. rewrite Qd. unfold descriptionDeps.
  rewrite T, settle_app. cbn [with_app app isTyping]. now rewrite M.
Qed.

Lemma owned_with_app (f : App.State -> App.State) (b : Banner) :
  owned b -> owned (with_app f b).
Proof. intros H. exact H. Qed.

Lemma owned_tick (id : nat) (b : Banner) : owned b -> owned (tick id b).
Proof.
  intros (A & Lt & Ld & Ne). unfold tick.
  destruct (active (timers b) !! id) as [cb|] eqn:E;
    [|repeat split; assumption].
  destruct (A _ _ E) as [(d & k & Et & -> & Ty)|(d & k & Ed & -> & Ty)];
    cbn [callback owner Nat.eqb]; unfold fire, clearInterval;
    cbn [callback index captured owner delay];
    destruct (k <? Js.length (text d)); cbn;
    (split; [|repeat split; assumption]); intros id' cb' H;
    cbn [timers active title description effect isTyping] in H |- *.
  - destruct (decide (id = id')) as [<-|N].
    + rewrite lookup_insert_eq in H. injection H as <-.
      left. exists d, (k + 1). auto.
    + rewrite lookup_insert_ne in H by exact N.
      destruct (A _ _ H) as [(d1 & k1 & E1 & -> & T1)|R]; [|now right].
      left. exists d1, k1. auto.
  - destruct (decide (id = id')) as [<-|N].
    + now rewrite lookup_delete_eq in H.
    + rewrite lookup_delete_ne in H by exact N.
      destruct (A _ _ H) as [(d1 & k1 & E1 & -> & T1)|R]; [|now right].
      rewrite Et in E1. injection E1 as <- <-. congruence.
  - destruct (decide (id = id')) as [<-|N].
    + rewrite lookup_insert_eq in H. injection H as <-.
      right. exists d, (k + 1). auto.
    + rewrite lookup_insert_ne in H by exact N.
      destruct (A _ _ H) as [L|(d1 & k1 & E1 & -> & T1)]; [now left|].
      right. exists d1, k1. auto.
  - destruct (decide (id = id')) as [<-|N].
    + now rewrite lookup_delete_eq in H.
    + rewrite lookup_delete_ne in H by exact N.
      destruct (A _ _ H) as [L|(d1 & k1 & E1 & -> & T1)]; [now left|].
      rewrite Ed in E1. injection E1 as <- <-. congruence.
Qed.

Lemma lookup_cleanup (h : Hook) (T : Timers) (id : nat) (cb : Callback) :
  active (cleanup h T) !! id = Some cb ->
  active T !! id = Some cb /\ forall d, effect h <> Some (d, id).
Proof.
  unfold cleanup. destruct (effect h) as [[d i]|]; cbn; intros H.
  - destruct (decide (i = id)) as [->|N].
    + now rewrite lookup_delete_eq in H.
    + rewrite lookup_delete_ne in H by exact N. split; [exact H|].
      intros d' [= _ E]. congruence.
  - split; [exact H | discriminate].
Qed.

Lemma owned_render_pass (b : Banner) : owned b -> owned (render_pass b).
Proof.
  intros (A & Lt & Ld & Ne). unfold render_pass.
  destruct (changed (titleDeps b) (title b)),
    (changed (descriptionDeps b) (description b));
    unfold owned, run_effect, setInterval;
    cbn [title description timers active next_id effect isTyping];
    rewrite ?next_id_cleanup.
  - (* both effects run *)
    split; [|split; [|split]].
    + intros id cb H.
      destruct (decide (S (next_id (timers b)) = id)) as [<-|N1].
      { rewrite lookup_insert_eq in H. injection H as <-.
        right. eauto. }
      rewrite lookup_insert_ne in H by exact N1.
      destruct (decide (next_id (timers b) = id)) as [<-|N0].
      { rewrite lookup_insert_eq in H. injection H as <-.
        left. eauto. }
      rewrite lookup_insert_ne in H by exact N0.
      apply lookup_cleanup in H as [H Hd].
      apply lookup_cleanup in H as [H Ht].
      destruct (A _ _ H) as [(d & k & E & _)|(d & k & E & _)];
        [now apply Ht in E | now apply Hd in E].
    + intros d id [= <- <-]. lia.
    + intros d id [= <- <-]. lia.
    + intros d d' id id' [= <- <-] [= <- <-]. lia.
  - (* the effect of the title runs *)
    split; [|split; [|split]].
    + intros id cb H.
      destruct (decide (next_id (timers b) = id)) as [<-|N0].
      { rewrite lookup_insert_eq in H. injection H as <-.
        left. eauto. }
      rewrite lookup_insert_ne in H by exact N0.
      apply lookup_cleanup in H as [H Ht].
      destruct (A _ _ H) as [(d & k & E & _)|R];
        [now apply Ht in E | now right].
    + intros d id [= <- <-]. lia.
    + intros d id E. specialize (Ld _ _ E). lia.
    + intros d d' id id' [= <- <-] E. specialize (Ld _ _ E). lia.
  - (* the effect of the description runs *)
    split; [|split; [|split]].
    + intros id cb H.
      destruct (decide (next_id (timers b) = id)) as [<-|N0].
      { rewrite lookup_insert_eq in H. injection H as <-.
        right. eauto. }
      rewrite lookup_insert_ne in H by exact N0.
      apply lookup_cleanup in H as [H Hd].
      destruct (A _ _ H) as [L|(d & k & E & _)];
        [now left | now apply Hd in E].
    + intros d id E. specialize (Lt _ _ E). lia.
    + intros d id [= <- <-]. lia.
    + intros d d' id id' E [= <- <-]. specialize (Lt _ _ E). lia.
  - (* no effect runs *)
    repeat split; assumption.
Qed.

Lemma owned_step (b : Banner) (e : Event) : owned b -> owned (step b e).
Proof.
  intros H. destruct e; cbn [step]; unfold settle;
    do 2 apply owned_render_pass.
  - now apply owned_tick.
  - now apply owned_with_app.
  - now apply owned_with_app.
Qed.

Lemma owned_exec (evs : list Event) : owned (exec mount evs).
Proof.
  unfold exec.
  assert (H : owned mount).
  { unfold mount, settle. do 2 apply owned_render_pass.
    repeat split; cbn; discriminate. }
  revert H. generalize mount.
  induction evs as [|e evs IH]; intros b H; [assumption|].
  apply IH, owned_step, H.
Qed.

(** X10: the banner leaves no timer behind. At every moment an active
    timer is the interval of the last effect of the title, which is then
    typing the title text, or the interval of the last effect of the
    description, which is then typing the description of the current
    mode; when neither hook is typing, no timer is active. *)
Theorem banner_timers (evs : list Event) :
  let b := exec mount evs in
  (forall id cb,
     active (timers b) !! id = Some cb ->
     (effect (title b) = Some (titleDeps b, id) /\
      isTyping (title b) = true /\
      owner cb = 0 /\ captured cb = titleText) \/
     (effect (description b) = Some (descriptionDeps b, id) /\
      isTyping (description b) = true /\
      owner cb = 1 /\
      captured cb = descriptionText (App.knowledgeMode (app b)))) /\
  (isTyping (title b) = false ->
   isTyping (description b) = false ->
   active (timers b) = ∅).
Proof.
  intros b. destruct (owned_exec evs) as (A & _). fold b in A.
  destruct (exec_stable evs) as [[Qt Qd] _]. fold b in Qt, Qd.
  apply changed_false in Qt as [iT Qt]. apply changed_false in Qd as [iD Qd].
  split.
  - intros id cb H.
    destruct (A _ _ H) as [(d & k & E & -> & T)|(d & k & E & -> & T)].
    + left. rewrite Qt in E. injection E as <- <-. rewrite Qt. auto.
    + right. rewrite Qd in E. injection E as <- <-. rewrite Qd. auto.
  - intros Ft Fd. apply map_empty. intros id.
    destruct (active (timers b) !! id) as [cb|] eqn:H; [|reflexivity].
    destruct (A _ _ H) as [(_ & _ & _ & _ & T)|(_ & _ & _ & _ & T)];
      congruence.
Qed.

(** The mount, and the end of the animation: the 28 units of the title,
    then the units of the description, each followed by one more tick. *)
Lemma banner_timers_witness :
  let n := Js.length (descriptionText Api.augmented) in
  let b := exec mount (replicate 29 (Tick 1) ++ replicate (S n) (Tick 3)) in
  owner <$> active (timers mount) !! 1 = Some 0 /\
  descriptionShown (view b) = descriptionText Api.augmented /\
  active (timers b) = ∅.
Proof.
  intros n b.
  destruct (banner_timers []) as (A & _).
  destruct (banner_timers (replicate 29 (Tick 1) ++ replicate (S n) (Tick 3)))
    as (_ & B).
  split; [|split].
  - destruct (active (timers (exec mount [])) !! 1) as [cb|] eqn:H;
      [|vm_compute in H; discriminate H].
    destruct (A 1 cb H) as [(_ & _ & O & _)|(E & _)].
    + change (active (timers mount) !! 1) with
        (active (timers (exec mount [])) !! 1).
      rewrite H. cbn. now rewrite O.
    + vm_compute in E. discriminate E.
  - vm_compute. reflexivity.
  - apply B; vm_compute; reflexivity.
Defined.

End Reanimation.

(** ** The conversation *)

Section Conversation.

Import Api App Session Turns.

Lemma paired_from_snoc_user (b : bool) (l : list Message) (u : Message) :
  role u = user -> paired_from b (l ++ [u]) = paired_from b l.
Proof.
  intros U. revert b. induction l as [|m l IH]; intros b; cbn.
  - now rewrite U.
  - destruct (role m); now rewrite IH.
Qed.

Lemma paired_from_snoc_reply (b : bool) (l : list Message) (u a : Message) :
  role u = user -> role a = assistant ->
  paired_from b ((l ++ [u]) ++ [a]) = paired_from b l.
Proof.
  intros U A. revert b. induction l as [|m l IH]; intros b; cbn.
  - now rewrite U, A.
  - destruct (role m); now rewrite IH.
Qed.


Lemma chat_in_flight_extra (sys : Sys) (s : State)
  (extra : list (Request * (Outcome -> Task))) :
  Forall (fun e => is_chat (fst e) = false) extra ->
  chat_in_flight {| state := s; pending := pending sys ++ extra |} =
  chat_in_flight sys.
Proof.
  intros H. unfold chat_in_flight. cbn [pending].
  rewrite map_app, List.filter_app.
  induction H as [|e extra He _ IH]; cbn; [now rewrite app_nil_r|].
  now rewrite He.
Qed.

(** What a bystander does to the session. *)
Lemma launch_Bystander (t : Task) (sys : Sys) :
  Bystander t ->
  messages (state (launch t sys)) = messages (state sys) /\
  isLoading (state (launch t sys)) = isLoading (state sys) /\
  exists extra,
    pending (launch t sys) = pending sys ++ extra /\
    Forall waiting_turn extra /\
    Forall (fun e => is_chat (fst e) = false) extra.
Proof.
  intros Ht. revert sys. unfold launch.
  induction Ht as [|f t Hf Ht IH|req c Hr Hc IH]; intros sys.
  - cbn. repeat split. exists []. rewrite app_nil_r. auto.
  - cbn [advance].
    specialize (IH {| state := f (state sys); pending := pending sys |}).
    cbn [state pending] in IH. destruct IH as (M & L & X).
    destruct (Hf (state sys)) as [Mf Lf].
    rewrite M, L, Mf, Lf. auto.
  - cbn. repeat split. exists [(req, c)]. repeat split.
    + constructor; [|constructor]. unfold waiting_turn. cbn [fst snd].
      rewrite Hr. exact Hc.
    + constructor; [exact Hr | constructor].
Qed.

Lemma turn_ok_bystander (sys sys' : Sys)
  (extra : list (Request * (Outcome -> Task))) :
  turn_ok sys ->
  messages (state sys') = messages (state sys) ->
  isLoading (state sys') = isLoading (state sys) ->
  pending sys' = pending sys ++ extra ->
  Forall waiting_turn extra ->
  Forall (fun e => is_chat (fst e) = false) extra ->
  turn_ok sys'.
Proof.
  intros (W & N & L & P & Q) M Lo Pe We Ne.
  assert (C : chat_in_flight sys' = chat_in_flight sys).
  { rewrite <- (chat_in_flight_extra sys (state sys') extra Ne).
    unfold chat_in_flight. cbn [pending]. now rewrite Pe. }
  unfold turn_ok. rewrite C, M, Lo, Pe. repeat split; try assumption.
  - apply Forall_app. auto.
  - apply L.
  - apply L.
Qed.

Lemma Bystander_andThen (t k : Task) :
  Bystander t -> Bystander k -> Bystander (andThen t k).
Proof.
  intros Ht Hk. induction Ht as [|f t Hf Ht IH|req c Hr Hc IH];
    cbn [andThen]; [assumption | |]; constructor; auto.
Qed.

Lemma Bystander_fetchDocuments : Bystander fetchDocuments.
Proof.
  constructor; [reflexivity|]. intros o.
  destruct (fetch_json o) as [data|m]; [destruct (success data)|];
    repeat constructor.
Qed.

Lemma Bystander_uploadEach (fs : list File) (after : Task) :
  Bystander after -> Bystander (uploadEach fs after).
Proof.
  intros Ha. induction fs as [|f fs IH]; cbn [uploadEach]; [assumption|].
  constructor; [reflexivity|]. intros o.
  destruct (fetch_json o) as [data|m]; [destruct (success data)|];
    constructor; try assumption; try (intros s; split; reflexivity).
  intros s. unfold incrementCompleted. now destruct (uploadProgress s).
Qed.

Lemma Bystander_processFiles (files : list File) :
  Bystander (processFiles files).
Proof.
  unfold processFiles. destruct (_ =? 0).
  - repeat constructor.
  - do 2 (constructor; [intros s; split; reflexivity|]).
    apply Bystander_uploadEach, Bystander_andThen;
      [apply Bystander_fetchDocuments | repeat constructor].
Qed.

Lemma Bystander_handleDeleteDocument (c : bool) (pdfId pdfName : string) :
  Bystander (handleDeleteDocument c pdfId pdfName).
Proof.
  unfold handleDeleteDocument. destruct c; cbn [negb]; [|constructor].
  constructor; [reflexivity|]. intros o.
  destruct (fetch_json_checked o) as [data|m];
    [destruct (success data)|].
  - apply Bystander_andThen;
      [apply Bystander_fetchDocuments | repeat constructor].
  - repeat constructor.
  - repeat constructor.
Qed.

(** What waits for the answer of a chat request ends the turn. *)
Lemma TurnEnd_chat (o : Outcome) :
  TurnEnd
    (andThen
       match fetch_json o with
       | Returned data =>
           if success data
           then Update
                  (setMessages (fun prev => prev ++ [assistantMessage data]))
                  Done
           else Update
                  (setError
                     (Some (Js.or_else (Api.error data)
                                       "Failed to get response")))
                  Done
       | Thrown m => Update (setError (Some ("Error: " +:+ m))) Done
       end
       (Update (setIsLoading false) Done)).
Proof.
  intros s. destruct (fetch_json o) as [data|m]; [destruct (success data)|];
    cbn; eexists; (split; [reflexivity|]); split; try reflexivity; auto.
  right. eexists. split; [|reflexivity]. reflexivity.
Qed.

Lemma chat_in_flight_delete_other (sys : Sys) (i : nat) (req : Request)
  (k : Outcome -> Task) (s : State) :
  pending sys !! i = Some (req, k) ->
  is_chat req = false ->
  chat_in_flight {| state := s; pending := delete i (pending sys) |} =
  chat_in_flight sys.
Proof.
  intros Hi Hr. unfold chat_in_flight. cbn [pending].
  rewrite <- (take_drop_middle (pending sys) i (req, k) Hi) at 2.
  rewrite delete_take_drop.
  rewrite !map_app, !List.filter_app. cbn. now rewrite Hr.
Qed.

Lemma Forall_delete_turn (l : list (Request * (Outcome -> Task)))
  (i : nat) : Forall waiting_turn l -> Forall waiting_turn (delete i l).
Proof.
  intros H. rewrite delete_take_drop. apply Forall_app. split.
  - now apply Forall_take.
  - now apply Forall_drop.
Qed.

(** One event keeps the turns in order and only adds to the history. *)
Lemma step_turn_ok (sys : Sys) (e : Event) :
  turn_ok sys ->
  turn_ok (step sys e) /\
  messages (state sys) `prefix_of` messages (state (step sys e)).
Proof.
  intros Hs.
  assert (By : forall t, Bystander t ->
            turn_ok (launch t sys) /\
            messages (state sys) `prefix_of` messages (state (launch t sys))).
  { intros t Ht. destruct (launch_Bystander t sys Ht) as (M & L & x & P & W & N).
    split; [eapply turn_ok_bystander; eassumption|]. now rewrite M. }
  assert (Sy : forall f, keeps_turn f ->
            turn_ok (sync f sys) /\
            messages (state sys) `prefix_of` messages (state (sync f sys))).
  { intros f Hf. destruct (Hf (state sys)) as [M L]. split.
    - apply (turn_ok_bystander sys _ []); cbn; auto.
      now rewrite app_nil_r.
    - cbn. now rewrite M. }
  destruct e; cbn [step];
    try (apply Sy; intros ?; split; reflexivity).
  - (* Send *)
    unfold handleSendMessage.
    destruct (negb (Js.truthy (Js.trim (inputMessage (state sys)))) ||
              isLoading (state sys)) eqn:G.
    + split; [now destruct sys | reflexivity].
    + apply handleSendMessage_guard in G as [_ L].
      destruct Hs as (W & N & Lo & P & Q).
      assert (E : chat_in_flight sys = []).
      { destruct (chat_in_flight sys) eqn:C; [reflexivity|].
        assert (isLoading (state sys) = true) by (apply Lo; discriminate).
        congruence. }
      unfold launch. cbn [advance]. split.
      * unfold turn_ok. rewrite chat_in_flight_app, E.
        cbn [pending state fst is_chat app].
        split; [|split; [|split; [|split]]].
        -- apply Forall_app. split; [assumption|].
           constructor; [|constructor]. unfold waiting_turn.
           cbn [fst snd is_chat]. intros o. apply TurnEnd_chat.
        -- cbn. lia.
        -- cbn. split; [discriminate | reflexivity].
        -- cbn. unfold paired in *.
           now rewrite paired_from_snoc_user by reflexivity.
        -- intros q m [[= <- <-]|[]]. cbn. eexists _, _.
           split; [reflexivity|]. split; reflexivity.
      * cbn. now apply prefix_app_r.
  - (* FileUpload *)
    apply By. unfold handleFileUpload.
    destruct (_ =? 0); [constructor | apply Bystander_processFiles].
  - (* DragEnter *)
    apply Sy. intros s. unfold handleDragEnter.
    destruct items as [n|]; [destruct (0 <? n)|]; split; reflexivity.
  - (* DragLeave *)
    apply Sy. intros s. unfold handleDragLeave.
    destruct (_ =? _)%Z; split; reflexivity.
  - (* Drop *)
    apply By. unfold handleDrop.
    do 2 (constructor; [intros s; split; reflexivity|]).
    destruct (0 <? _); [apply Bystander_processFiles | constructor].
  - (* Delete *)
    apply By. apply Bystander_handleDeleteDocument.
  - (* Settle *)
    destruct (pending sys !! i) as [[req k]|] eqn:Hi;
      [|split; [assumption | reflexivity]].
    destruct Hs as (W & N & Lo & P & Q).
    assert (Hk : waiting_turn (req, k))
      by (eapply Forall_lookup_1; [exact W | exact Hi]).
    unfold waiting_turn in Hk. cbn [fst snd] in Hk.
    destruct (is_chat req) eqn:Hr.
    + pose proof (chat_in_flight_delete sys i req k (state sys) Hi) as Hc.
      rewrite Hr in Hc.
      assert (E : chat_in_flight
                    {| state := state sys;
                       pending := delete i (pending sys) |} = []).
      { apply length_zero_iff_nil. lia. }
      assert (In req (chat_in_flight sys)).
      { unfold chat_in_flight. apply filter_In. split; [|exact Hr].
        apply in_map_iff. exists (req, k). split; [reflexivity|].
        apply list_elem_of_In. eapply list_elem_of_lookup_2, Hi. }
      destruct req as [| | |q m]; try discriminate Hr.
      destruct (Q q m H) as (pre & u & Mu & Ru & _).
      destruct (Hk o (state sys)) as (s' & A & Ls & Ms).
      unfold launch. cbn [state pending]. rewrite A.
      assert (C' : chat_in_flight
                     {| state := s'; pending := delete i (pending sys) |}
                   = []) by exact E.
      split.
      * unfold turn_ok. rewrite C'. cbn [state pending].
        split; [now apply Forall_delete_turn|].
        split; [cbn; lia|].
        split; [rewrite Ls; split; [discriminate | congruence]|].
        split; [|intros ? ? []].
        destruct Ms as [->|(a & Ra & ->)]; [exact P|].
        unfold paired in *. rewrite Mu in *.
        rewrite paired_from_snoc_reply by assumption.
        now rewrite paired_from_snoc_user in P by assumption.
      * cbn [state]. destruct Ms as [->|(a & Ra & ->)];
          [reflexivity | now apply prefix_app_r].
    + assert (Hd : turn_ok {| state := state sys;
                              pending := delete i (pending sys) |}).
      { unfold turn_ok.
        rewrite (chat_in_flight_delete_other sys i req k _ Hi Hr).
        cbn [state pending]. repeat split; try assumption.
        - now apply Forall_delete_turn.
        - apply Lo.
        - apply Lo. }
      destruct (launch_Bystander (k o)
                  {| state := state sys;
                     pending := delete i (pending sys) |} (Hk o))
        as (M & L & x & Px & Wx & Nx).
      split; [eapply turn_ok_bystander; eassumption|].
      rewrite M. reflexivity.
Qed.

Lemma boot_turn_ok : turn_ok boot.
Proof.
  destruct (launch_Bystander fetchDocuments
              {| state := initial; pending := [] |} Bystander_fetchDocuments)
    as (M & L & x & Px & Wx & Nx).
  eapply (turn_ok_bystander {| state := initial; pending := [] |});
    try eassumption.
  unfold turn_ok, chat_in_flight. cbn.
  split; [constructor|]. split; [lia|].
  split; [split; [discriminate | congruence]|].
  split; [reflexivity|]. intros q m [].
Qed.

Lemma exec_turn_ok (sys : Sys) (evs : list Event) :
  turn_ok sys ->
  turn_ok (exec sys evs) /\
  messages (state sys) `prefix_of` messages (state (exec sys evs)).
Proof.
  revert sys. induction evs as [|e evs IH]; intros sys H;
    [split; [assumption | reflexivity]|].
  cbn [exec fold_left]. destruct (step_turn_ok sys e H) as [H1 P1].
  destruct (IH _ H1) as [H2 P2]. split; [exact H2|].
  etransitivity; eassumption.
Qed.




(** X13: the history only grows: whatever happens next, the messages of
    any moment stay, in their order, at the head of the history. No
    handler and no answer removes or rewrites a message. *)
Theorem history_append_only (evs evs' : list Event) :
  messages (state (exec boot evs)) `prefix_of`
  messages (state (exec boot (evs ++ evs'))).
Proof.
  unfold exec at 2. rewrite fold_left_app. fold (exec boot evs).
  fold (exec (exec boot evs) evs').
  apply exec_turn_ok. apply (exec_turn_ok boot evs boot_turn_ok).
Qed.

End Conversation.

(** ** The document list *)

Section Documents.

Import Api App Session Refetch.

Lemma Refetching_weaken (b : bool) (t : Task) :
  Refetching false t -> Refetching b t.
Proof.
  intros H. inversion H; subst; constructor; assumption.
Qed.

Lemma Refetching_andThen (b : bool) (t k : Task) :
  Refetching b t -> Refetching false k -> Refetching b (andThen t k).
Proof.
  intros Ht Hk. induction Ht; cbn [andThen].
  - now apply Refetching_weaken.
  - now constructor.
  - now constructor.
  - constructor. auto.
Qed.

Lemma Refetching_fetchDocuments (b : bool) : Refetching b fetchDocuments.
Proof.
  constructor. intros o. cbn [is_get andb]. unfold succeeded.
  destruct (fetch_json o) as [data|m]; [destruct (success data)|].
  - apply refetching_replace. constructor.
  - constructor.
  - constructor.
Qed.

Lemma Refetching_uploadEach (fs : list File) (after : Task) :
  Refetching false after -> Refetching false (uploadEach fs after).
Proof.
  intros Ha. induction fs as [|f fs IH]; cbn [uploadEach]; [assumption|].
  constructor. intros o. cbn [is_get andb].
  destruct (fetch_json o) as [data|m]; [destruct (success data)|];
    constructor; try assumption; try reflexivity.
  intros s. unfold incrementCompleted. now destruct (uploadProgress s).
Qed.

Lemma Refetching_processFiles (files : list File) :
  Refetching false (processFiles files).
Proof.
  unfold processFiles. destruct (_ =? 0).
  - repeat constructor.
  - do 2 (constructor; [reflexivity|]).
    apply Refetching_uploadEach, Refetching_andThen;
      [apply Refetching_fetchDocuments | repeat constructor].
Qed.

Lemma Refetching_handleDeleteDocument (c : bool) (pdfId pdfName : string) :
  Refetching false (handleDeleteDocument c pdfId pdfName).
Proof.
  unfold handleDeleteDocument. destruct c; cbn [negb]; [|constructor].
  constructor. intros o. cbn [is_get andb].
  destruct (fetch_json_checked o) as [data|m];
    [destruct (success data)|].
  - apply Refetching_andThen;
      [apply Refetching_fetchDocuments | repeat constructor].
  - repeat constructor.
  - repeat constructor.
Qed.

Lemma Refetching_handleSendMessage (now : string) (s : State) :
  Refetching false (handleSendMessage now s).
Proof.
  unfold handleSendMessage. destruct (_ || _); [constructor|].
  do 4 (constructor; [reflexivity|]). constructor. intros o.
  cbn [is_get andb].
  destruct (fetch_json o) as [data|m]; [destruct (success data)|];
    repeat constructor.
Qed.

Lemma launch_Refetching (b : bool) (t : Task) (sys : Sys) :
  Refetching b t ->
  (b = false ->
   documents (state (launch t sys)) = documents (state sys)) /\
  exists extra,
    pending (launch t sys) = pending sys ++ extra /\
    Forall waiting_refetch extra.
Proof.
  intros Ht. revert sys. unfold launch.
  induction Ht as [b|b f k Hf Hk IH|docs k Hk IH|b req k Hk IH]; intros sys.
  - cbn. split; [reflexivity|]. exists []. now rewrite app_nil_r.
  - cbn [advance].
    specialize (IH {| state := f (state sys); pending := pending sys |}).
    cbn [state pending] in IH. destruct IH as (D & X).
    split; [|exact X]. intros _. rewrite (D eq_refl). apply Hf.
  - cbn [advance].
    specialize (IH {| state := setDocuments docs (state sys);
                      pending := pending sys |}).
    cbn [state pending] in IH. destruct IH as (_ & X).
    split; [discriminate | exact X].
  - cbn. split; [reflexivity|]. exists [(req, k)].
    split; [reflexivity|]. constructor; [exact Hk | constructor].
Qed.

(** One event keeps what waits in order, and changes the document list
    only if it is a successful answer to a request for the list. *)
Lemma step_refetch (sys : Sys) (e : Event) :
  Forall waiting_refetch (pending sys) ->
  Forall waiting_refetch (pending (step sys e)) /\
  (documents (state (step sys e)) <> documents (state sys) ->
   exists i k o,
     e = Settle i o /\ pending sys !! i = Some (GetDocuments, k) /\
     succeeded o = true).
Proof.
  intros W.
  assert (La : forall t, Refetching false t ->
            Forall waiting_refetch (pending (launch t sys)) /\
            documents (state (launch t sys)) = documents (state sys)).
  { intros t Ht. destruct (launch_Refetching false t sys Ht)
      as (D & x & P & X).
    split; [|now apply D]. rewrite P. apply Forall_app. auto. }
  assert (Sy : forall f, (forall s, documents (f s) = documents s) ->
            Forall waiting_refetch (pending (sync f sys)) /\
            documents (state (sync f sys)) = documents (state sys)).
  { intros f Hf. split; [exact W | apply Hf]. }
  assert (Fin : forall sys',
            Forall waiting_refetch (pending sys') /\
            documents (state sys') = documents (state sys) ->
            Forall waiting_refetch (pending sys') /\
            (documents (state sys') <> documents (state sys) ->
             exists i k o,
               e = Settle i o /\ pending sys !! i = Some (GetDocuments, k) /\
               succeeded o = true)).
  { intros sys' [A B]. split; [exact A|]. intros N. now destruct N. }
  destruct e; cbn [step];
    try (apply Fin, Sy; intros ?; reflexivity).
  - apply Fin, La, Refetching_handleSendMessage.
  - apply Fin, La. unfold handleFileUpload.
    destruct (_ =? 0); [constructor | apply Refetching_processFiles].
  - apply Fin, Sy. intros s. unfold handleDragEnter.
    destruct items as [n|]; [destruct (0 <? n)|]; reflexivity.
  - apply Fin, Sy. intros s. unfold handleDragLeave.
    now destruct (_ =? _)%Z.
  - apply Fin, La. unfold handleDrop. do 2 (constructor; [reflexivity|]).
    destruct (0 <? _); [apply Refetching_processFiles | constructor].
  - apply Fin, La, Refetching_handleDeleteDocument.
  - destruct (pending sys !! i) as [[req k]|] eqn:Hi;
      [|split; [exact W | intros N; now destruct N]].
    assert (Hk : waiting_refetch (req, k))
      by (eapply Forall_lookup_1; [exact W | exact Hi]).
    specialize (Hk o). cbn [fst snd] in Hk.
    assert (Wd : Forall waiting_refetch (delete i (pending sys))).
    { rewrite delete_take_drop. apply Forall_app. split;
        [now apply Forall_take | now apply Forall_drop]. }
    destruct (launch_Refetching _ (k o)
                {| state := state sys; pending := delete i (pending sys) |}
                Hk) as (D & x & P & X).
    cbn [state pending] in D, P.
    split; [rewrite P; apply Forall_app; auto|].
    intros N. destruct (is_get req && succeeded o) eqn:B.
    + apply andb_true_iff in B as [G S].
      destruct req; try discriminate G. exists i, k, o. auto.
    + destruct N. now apply D.
Qed.

Lemma exec_refetch (evs : list Event) :
  Forall waiting_refetch (pending (exec boot evs)).
Proof.
  unfold exec.
  assert (H : Forall waiting_refetch (pending boot)).
  { destruct (launch_Refetching false fetchDocuments
                {| state := initial; pending := [] |}
                (Refetching_fetchDocuments false)) as (_ & x & P & X).
    unfold boot. rewrite P. exact X. }
  revert H. generalize boot.
  induction evs as [|e evs IH]; intros sys H; [assumption|].
  apply IH, step_refetch, H.
Qed.

(** X14: the document list is a copy of the backend's, never patched
    from this side: in any session an event changes the list only if it
    is a successful answer to a pending request for the list. An upload,
    a delete, their answers and every other event leave it as it is. *)
Theorem documents_change_only_by_refresh (evs : list Event) (e : Event) :
  let sys := exec boot evs in
  documents (state (step sys e)) <> documents (state sys) ->
  exists i k o,
    e = Settle i o /\ pending sys !! i = Some (GetDocuments, k) /\
    succeeded o = true.
Proof.
  intros sys. apply step_refetch, exec_refetch.
Qed.

(** The answer to the request of the mount. *)
Lemma documents_change_only_by_refresh_witness :
  exists i k o,
    Settle 0 (Sample.listing [Sample.doc "1" "a.pdf"]) = Settle i o /\
    pending (exec boot []) !! i = Some (GetDocuments, k) /\
    succeeded o = true.
Proof.
  apply (documents_change_only_by_refresh []
           (Settle 0 (Sample.listing [Sample.doc "1" "a.pdf"]))).
  discriminate.
Defined.

End Documents.

(** ** The send controls *)

Section SendControls.

Import Api App Controls.

(** X15: the send button is enabled only in states where
    [handleSendMessage] accepts the send, and a click on it then sends
    the question; in every state where the handler would return at once
    the button is disabled. In the textarea, Enter without Shift is a
    send and Shift+Enter, like any other key, is not. *)
Theorem send_controls (s : State) (now : string) :
  (sendDisabled s = false ->
   documents s <> [] /\
   exists k,
     snd (advance (handleSendMessage now s) s) =
       Waiting (PostChat (inputMessage s) (knowledgeMode s)) k) /\
  (handleSendMessage now s = Done -> sendDisabled s = true) /\
  handleKeyPress "Enter" false now s = handleSendMessage now s /\
  (forall key shift,
     handleKeyPress key shift now s <> Done ->
     key = "Enter" /\ shift = false).
Proof.
  assert (K : forall key shift (t : Task),
            (if String.eqb key "Enter" && negb shift then t else Done)
            <> Done -> key = "Enter" /\ shift = false).
  { intros key shift t H.
    destruct (String.eqb_spec key "Enter"), shift; cbn in H;
      try congruence. auto. }
  split; [|split; [|split]].
  - intros H. unfold sendDisabled in H. apply orb_false_iff in H as [G D].
    split.
    + destruct (documents s); [discriminate D | discriminate].
    + unfold handleSendMessage. rewrite G. cbn. eauto.
  - intros H. unfold sendDisabled. unfold handleSendMessage in H.
    destruct (negb (Js.truthy (Js.trim (inputMessage s))) || isLoading s);
      [reflexivity | discriminate H].
  - reflexivity.
  - intros key shift. unfold handleKeyPress. apply K.
Qed.

Lemma send_controls_witness :
  let s :=
    setDocuments [Sample.doc "1" "a.pdf"] (setInputMessage "Hi" initial) in
  exists k,
    snd (advance (handleSendMessage "10:00" s) s) =
      Waiting (PostChat "Hi" augmented) k.
Proof.
  intros s. destruct (send_controls s "10:00") as (H & _).
  apply H. reflexivity.
Defined.

End SendControls.

(** ** Batches that do not overlap *)

Section Gated.

Import Api App Session Turns Controls Gate.

Lemma Every_andThen (U : (State -> State) -> Prop) (R : Request -> Prop)
  (t k : Task) : Every U R t -> Every U R k -> Every U R (andThen t k).
Proof.
  intros Ht Hk. induction Ht as [|f t Hf Ht IH|req c Hr Hc IH];
    cbn [andThen]; [assumption | |]; constructor; auto.
Qed.

Lemma Outsider_fetchDocuments : Outsider fetchDocuments.
Proof.
  constructor; [exact I|]. intros o.
  destruct (fetch_json o) as [data|m]; [destruct (success data)|];
    repeat constructor.
Qed.

Lemma Outsider_handleDeleteDocument (c : bool) (pdfId pdfName : string) :
  Outsider (handleDeleteDocument c pdfId pdfName).
Proof.
  unfold handleDeleteDocument. destruct c; cbn [negb]; [|constructor].
  constructor; [exact I|]. intros o.
  destruct (fetch_json_checked o) as [data|m];
    [destruct (success data)|].
  - apply Every_andThen;
      [apply Outsider_fetchDocuments | repeat constructor].
  - repeat constructor.
  - repeat constructor.
Qed.

Lemma Outsider_handleSendMessage (now : string) (s : State) :
  Outsider (handleSendMessage now s).
Proof.
  unfold handleSendMessage. destruct (_ || _); [constructor|].
  do 4 (constructor; [intros ?; split; reflexivity|]).
  constructor; [exact I|]. intros o.
  destruct (fetch_json o) as [data|m]; [destruct (success data)|];
    repeat constructor.
Qed.

Lemma Batch_weaken (n : nat) (t : Task) : Batch n t -> Batch (S n) t.
Proof.
  intros H. induction H as [n k Hk|n k Hk IH|n f k Hf Hk IH|n req k Hk IH].
  - now apply batch_end.
  - now apply batch_count.
  - now apply batch_update.
  - now apply batch_await.
Qed.

(** The end of [processFiles]: the refresh, then the reset. *)
Lemma Batch_finish (n : nat) :
  Batch n (andThen fetchDocuments (Update (setUploadProgress None) Done)).
Proof.
  apply batch_await. intros o.
  destruct (fetch_json o) as [data|m]; [destruct (success data)|];
    cbn [andThen].
  - apply batch_update; [intros ?; split; reflexivity|].
    apply batch_end. constructor.
  - apply batch_end. constructor.
  - apply batch_end. constructor.
Qed.

Lemma Batch_uploadEach (fs : list File) :
  Batch (List.length fs)
    (uploadEach fs
       (andThen fetchDocuments (Update (setUploadProgress None) Done))).
Proof.
  induction fs as [|f fs IH]; cbn [uploadEach List.length];
    [apply Batch_finish|].
  apply batch_await. intros o.
  destruct (fetch_json o) as [data|m]; [destruct (success data)|].
  - now apply batch_count.
  - apply Batch_weaken, batch_update; [intros ?; split; reflexivity|].
    exact IH.
  - apply Batch_weaken, batch_update; [intros ?; split; reflexivity|].
    exact IH.
Qed.

Lemma advance_Outsider (t : Task) (s : State) :
  Outsider t ->
  uploadProgress (fst (advance t s)) = uploadProgress s /\
  renderError (fst (advance t s)) = renderError s /\
  match snd (advance t s) with
  | Finished => True
  | Waiting req k => forall o, Outsider (k o)
  end.
Proof.
  intros H. revert s.
  induction H as [|f t Hf Ht IH|req c Hr Hc IH]; intros s; cbn [advance].
  - cbn. auto.
  - destruct (IH (f s)) as (A & B & C). destruct (Hf s) as [P Q].
    rewrite A, B, P, Q. auto.
  - cbn. auto.
Qed.

(** What the rest of a batch does when it runs on. *)
Lemma advance_Batch (n : nat) (t : Task) :
  Batch n t ->
  forall (s : State) (p : UploadProgress),
    uploadProgress s = Some p ->
    completed p + n <= total p ->
    renderError s = false ->
    renderError (fst (advance t s)) = false /\
    ((uploadProgress (fst (advance t s)) = None /\
      match snd (advance t s) with
      | Finished => True
      | Waiting req k => forall o, Outsider (k o)
      end) \/
     (exists p' n' req k,
        snd (advance t s) = Waiting req k /\
        uploadProgress (fst (advance t s)) = Some p' /\
        completed p' + n' <= total p' /\
        forall o, Batch n' (k o))).
Proof.
  intros H.
  induction H as [n k Hk|n k Hk IH|n f k Hf Hk IH|n req k Hk IH];
    intros s p Hp Hn He; cbn [advance].
  - destruct (advance_Outsider k (setUploadProgress None s) Hk)
      as (A & B & C).
    rewrite B. split; [exact He|]. left. rewrite A. auto.
  - apply (IH _ {| total := total p; completed := completed p + 1 |}).
    + unfold incrementCompleted. now rewrite Hp.
    + cbn. lia.
    + unfold incrementCompleted. now rewrite Hp.
  - destruct (Hf s) as [P Q]. apply (IH _ p); congruence.
  - cbn. split; [exact He|]. right. exists p, n, req, k. auto.
Qed.

Lemma upload_ok_out (sys sys' : Sys)
  (extra : list (Request * (Outcome -> Task))) :
  upload_ok sys ->
  uploadProgress (state sys') = uploadProgress (state sys) ->
  renderError (state sys') = renderError (state sys) ->
  pending sys' = pending sys ++ extra ->
  Forall waiting_out extra ->
  upload_ok sys'.
Proof.
  intros (E & [[N W]|(p & n & l1 & e & l2 & P & Le & Pe & Wb & W1 & W2)])
    Hp Hr Hx Wx; (split; [congruence|]).
  - left. rewrite Hp, Hx. split; [exact N|]. apply Forall_app. auto.
  - right. exists p, n, l1, e, (l2 ++ extra). rewrite Hp, Hx, Pe.
    repeat split; try assumption.
    + now rewrite <- app_assoc.
    + apply Forall_app. auto.
Qed.

Lemma launch_Outsider (t : Task) (sys : Sys) :
  Outsider t -> upload_ok sys -> upload_ok (launch t sys).
Proof.
  intros Ht Hs. destruct (advance_Outsider t (state sys) Ht) as (A & B & C).
  unfold launch. destruct (advance t (state sys)) as [s' [|req k]];
    cbn [fst snd] in *.
  - apply (upload_ok_out sys _ []); cbn; auto. now rewrite app_nil_r.
  - apply (upload_ok_out sys _ [(req, k)]); cbn; auto.
Qed.

Lemma sync_upload_ok (f : State -> State) (sys : Sys) :
  keeps_progress f -> upload_ok sys -> upload_ok (sync f sys).
Proof.
  intros Hf Hs. destruct (Hf (state sys)) as [P Q].
  apply (upload_ok_out sys _ []); cbn; auto. now rewrite app_nil_r.
Qed.

(** The place of a pending request among those before the batch's, the
    batch's own and those after it. *)
Lemma lookup_around {A : Type} (l1 : list A) (e : A) (l2 : list A)
  (i : nat) (x : A) :
  (l1 ++ e :: l2) !! i = Some x ->
  (l1 !! i = Some x /\
   delete i (l1 ++ e :: l2) = delete i l1 ++ e :: l2) \/
  (x = e /\ delete i (l1 ++ e :: l2) = l1 ++ l2) \/
  (exists j, l2 !! j = Some x /\
             delete i (l1 ++ e :: l2) = l1 ++ e :: delete j l2).
Proof.
  revert i. induction l1 as [|a l1 IH]; intros i H.
  - destruct i as [|j]; cbn in H.
    + injection H as <-. right. left. auto.
    + right. right. exists j. auto.
  - destruct i as [|i']; cbn in H.
    + injection H as <-. left. auto.
    + destruct (IH i' H) as [[L D]|[[-> D]|(j & L & D)]].
      * left. split; [exact L|]. cbn. f_equal. exact D.
      * right. left. split; [reflexivity|]. cbn. f_equal. exact D.
      * right. right. exists j. split; [exact L|]. cbn. f_equal. exact D.
Qed.

Lemma Forall_delete_out (l : list (Request * (Outcome -> Task)))
  (i : nat) : Forall waiting_out l -> Forall waiting_out (delete i l).
Proof.
  intros H. rewrite delete_take_drop. apply Forall_app. split.
  - now apply Forall_take.
  - now apply Forall_drop.
Qed.

Lemma step_upload_ok (sys : Sys) (e : Event) :
  upload_ok sys ->
  gated sys [e] = true ->
  upload_ok (step sys e).
Proof.
  intros Hs G. cbn [gated] in G. rewrite andb_true_r in G.
  destruct e; cbn [step];
    try (apply sync_upload_ok; [intros ?; split; reflexivity | exact Hs]).
  - apply launch_Outsider; [apply Outsider_handleSendMessage | exact Hs].
  - (* FileUpload: the progress is null *)
    unfold uploadDisabled in G.
    destruct Hs as (E & [[N W]|(p & n & l1 & e & l2 & P & _)]);
      [|rewrite P in G; discriminate G].
    assert (Hs : upload_ok sys) by (split; [exact E | left; auto]).
    unfold handleFileUpload.
    destruct (List.length files =? 0);
      [apply launch_Outsider; [constructor | exact Hs]|].
    unfold processFiles.
    destruct (List.filter isPdf files) as [|f fs] eqn:F;
      cbn [List.length Nat.eqb].
    + apply launch_Outsider; [|exact Hs].
      constructor; [intros ?; split; reflexivity | constructor].
    + unfold launch. cbn [advance uploadEach]. split; [exact E|].
      right. exists {| total := S (List.length fs); completed := 0 |},
               (S (List.length fs)), (pending sys).
      eexists. exists [].
      cbn [state pending uploadProgress setError setUploadProgress
           total completed].
      split; [reflexivity|]. split; [lia|]. split; [reflexivity|].
      split; [|split; [exact W | constructor]].
      intros o. cbn [snd].
      destruct (fetch_json o) as [data|m]; [destruct (success data)|].
      * apply batch_count, Batch_uploadEach.
      * apply Batch_weaken, batch_update;
          [intros ?; split; reflexivity | apply Batch_uploadEach].
      * apply Batch_weaken, batch_update;
          [intros ?; split; reflexivity | apply Batch_uploadEach].
  - apply sync_upload_ok; [|exact Hs]. intros s. unfold handleDragEnter.
    destruct items as [n|]; [destruct (0 <? n)|]; split; reflexivity.
  - apply sync_upload_ok; [|exact Hs]. intros s. unfold handleDragLeave.
    destruct (_ =? _)%Z; split; reflexivity.
  - (* Drop: no file *)
    apply launch_Outsider; [|exact Hs]. unfold handleDrop.
    apply Nat.eqb_eq in G. rewrite G. cbn [Nat.ltb Nat.leb].
    repeat constructor.
  - apply launch_Outsider; [apply Outsider_handleDeleteDocument | exact Hs].
  - (* Settle *)
    destruct (pending sys !! i) as [[req k]|] eqn:Hi; [|exact Hs].
    destruct Hs as (E & [[N W]|(p & n & l1 & e & l2 & P & Le & Pe & Wb & W1 & W2)]).
    + apply launch_Outsider.
      * exact (Forall_lookup_1 _ _ _ _ W Hi o).
      * split; [exact E|]. left. split; [exact N|].
        now apply Forall_delete_out.
    + rewrite Pe in Hi.
      destruct (lookup_around _ _ _ _ _ Hi) as [[L D]|[[X D]|(j & L & D)]];
        rewrite Pe, D.
      * apply launch_Outsider.
        -- exact (Forall_lookup_1 _ _ _ _ W1 L o).
        -- split; [exact E|]. right.
           exists p, n, (delete i l1), e, l2. cbn [state pending].
           repeat split; try assumption. now apply Forall_delete_out.
      * subst e. specialize (Wb o). cbn [snd] in Wb.
        destruct (advance_Batch _ _ Wb (state sys) p P Le E)
          as (E' & [[N' C]|(p' & n' & req' & k' & Hw & P' & Le' & B')]);
          unfold launch; cbn [state pending];
          destruct (advance (k o) (state sys)) as [s' w]; cbn [fst snd] in *.
        -- destruct w as [|req' k']; (split; [exact E'|]); left;
             cbn [state pending]; (split; [exact N'|]).
           ++ apply Forall_app. auto.
           ++ apply Forall_app. split; [apply Forall_app; auto|].
              constructor; [exact C | constructor].
        -- subst w. split; [exact E'|]. right.
           exists p', n', (l1 ++ l2), (req', k'), [].
           cbn [state pending]. repeat split; try assumption.
           ++ apply Forall_app. auto.
           ++ constructor.
      * apply launch_Outsider.
        -- exact (Forall_lookup_1 _ _ _ _ W2 L o).
        -- split; [exact E|]. right.
           exists p, n, l1, e, (delete j l2). cbn [state pending].
           repeat split; try assumption. now apply Forall_delete_out.
Qed.

Lemma exec_upload_ok (sys : Sys) (evs : list Event) :
  upload_ok sys -> gated sys evs = true -> upload_ok (exec sys evs).
Proof.
  revert sys. induction evs as [|e evs IH]; intros sys H G; [exact H|].
  cbn [gated] in G. apply andb_true_iff in G as [Ge G].
  cbn [exec fold_left]. apply IH; [|exact G].
  apply step_upload_ok; [exact H|]. cbn [gated]. now rewrite Ge.
Qed.

Lemma boot_upload_ok : upload_ok boot.
Proof.
  apply launch_Outsider; [apply Outsider_fetchDocuments|].
  split; [reflexivity|]. left. split; [reflexivity | constructor].
Qed.

(** X16: as long as files come only through the file dialog, whose
    buttons are disabled while the progress is not [null], and none is
    dropped, batches never overlap: whatever the other events and the
    order of the answers, no updater throws and the progress, when there
    is one, never counts more successes than files. *)
Theorem gated_batches (evs : list Event) :
  gated boot evs = true ->
  let s := state (exec boot evs) in
  renderError s = false /\
  forall p, uploadProgress s = Some p -> completed p <= total p.
Proof.
  intros G s.
  destruct (exec_upload_ok boot evs boot_upload_ok G)
    as (E & [[N _]|(p & n & _ & _ & _ & P & Le & _)]); fold s in E.
  - split; [exact E|]. fold s in N. intros p P. congruence.
  - split; [exact E|]. fold s in P. intros p' P'.
    assert (p' = p) as -> by congruence. lia.
Qed.

(** Two batches, one after the other, of which the first has one failure. *)
Lemma gated_batches_witness :
  let a := Sample.pdf "a.pdf" in
  let b := Sample.pdf "b.pdf" in
  let evs :=
    [FileUpload [a; b]; Settle 1 Sample.ok; Settle 1 (Sample.failed "no");
     Settle 1 (Sample.listing [Sample.doc "1" "a.pdf"]);
     FileUpload [b]; Settle 1 Sample.ok] in
  uploadProgress (state (exec boot evs)) =
    Some {| total := 1; completed := 1 |} /\
  renderError (state (exec boot evs)) = false.
Proof.
  intros a b evs.
  destruct (gated_batches evs) as (E & _); [reflexivity|].
  split; [reflexivity | exact E].
Defined.

End Gated.
